(** * The Google provider of cashier's authentication front-end

    A shallow embedding of [server/auth/google/google.go]: the provider built
    by [New], and its methods [Name], [Valid], [Revoke], [StartSession],
    [Exchange], [Email] and [Username].

    The provider talks to three collaborators that live outside the file: the
    OAuth2 and Google API client libraries (and through them the network), the
    clock read by [token.Valid()], and the process-wide metrics registry
    [metrics.M].  The libraries and the network are an abstract [Backend]: a
    record of operations over a world [W] that each return an answer and the
    next world.  The metrics registry is a field of the state the methods
    thread.  Go strings are byte strings, and so are Rocq's. *)

From Stdlib Require Import Ascii String.
From stdpp Require Import base option strings gmap list.

Local Open Scope Z_scope.

(** ** Values of the libraries the provider handles *)

(** Go's [error]: the message it carries. *)
Definition error := string.

(** A Go result pair [(v, err)] of which exactly one side is set. *)
Inductive result (A : Type) : Type :=
| Ok (a : A)
| Err (e : error).
Arguments Ok {A} a.
Arguments Err {A} e.

(** [oauth2.Endpoint]. *)
Record Endpoint := {
  AuthURL : string;
  TokenURL : string
}.

(** [oauth2.Config]. *)
Record OauthConfig := {
  ClientID : string;
  ClientSecret : string;
  RedirectURL : string;
  OauthEndpoint : Endpoint;
  Scopes : list string
}.

(** [oauth2.Token], held through a non-nil pointer; [Expiry] counts seconds,
    and [0] is the zero time. *)
Record Token := {
  AccessToken : string;
  TokenType : string;
  RefreshToken : string;
  Expiry : Z
}.

(** The fields of [googleapi.Tokeninfo] and [googleapi.Userinfo] that the
    provider reads; [UserEmail] is the field [Email] of [Userinfo], renamed
    apart from the method [Email] of the provider. *)
Record Tokeninfo := {
  Audience : string
}.

Record Userinfo := {
  UserEmail : string;
  Hd : string
}.

(** [config.Auth], the parsed configuration handed to [New]. *)
Record Auth := {
  OauthClientID : string;
  OauthClientSecret : string;
  OauthCallbackURL : string;
  ProviderOpts : gmap string string;
  UsersWhitelist : list string
}.

(** [http.Request] and [http.Response], as far as [Revoke] sees them. *)
Record Request := {
  req_method : string;
  req_url : string
}.

Record Response := {
  StatusCode : Z
}.

(** [url.Values]: every key holds the list of its values. *)
Abbreviation Values := (gmap string (list string)).

(** An authorization URL before it is flattened to text: the endpoint and
    the query parameters that [Values.Encode] then writes as [k=v] pairs,
    an empty value as [k=]. *)
Record AuthorizationURL := {
  url_endpoint : string;
  url_query : Values
}.

(** [oauth2.AuthCodeOption]; the provider builds its options with
    [SetAuthURLParam k v] only. *)
Inductive AuthCodeOption :=
| SetAuthURLParam (key value : string).

(** ** Go's map and string primitives *)

(** [m[k]] on a [map[string]bool] and on a [map[string]string]: the zero
    value when the key is absent. *)
Definition map_get_bool (m : gmap string bool) (k : string) : bool :=
  default false (m !! k).

Definition map_get_string (m : gmap string string) (k : string) : string :=
  default "" (m !! k).

(** [a != b] on strings. *)
Definition string_neq (a b : string) : bool := negb (String.eqb a b).

(** [strings.Split(s, sep)] for a separator of one byte: the pieces of [s]
    between the occurrences of [sep], in order. *)
Fixpoint Split (s : string) (sep : ascii) : list string :=
  match s with
  | EmptyString => [EmptyString]
  | String ch rest =>
      if Ascii.eqb ch sep then EmptyString :: Split rest sep
      else match Split rest sep with
           | [] => [String ch EmptyString]
           | piece :: pieces => String ch piece :: pieces
           end
  end.

(** [fmt.Sprintf(revokeURL, t)] with the constant
    [revokeURL = "https://accounts.google.com/o/oauth2/revoke?token=%s"]. *)
Definition revokeURL (t : string) : string :=
  "https://accounts.google.com/o/oauth2/revoke?token=" +:+ t.

Definition name : string := "google".

(** ** The provider *)

(** [Config], the provider. *)
Record Config := {
  config : OauthConfig;
  domain : string;
  whitelist : gmap string bool
}.

(** [c.config.Client(ctx, token)]: an HTTP client that signs its requests
    with [token], built for [ctx]. *)
Record HttpClient (Ctx : Type) := {
  client_config : OauthConfig;
  client_ctx : Ctx;
  client_token : Token
}.
Arguments client_config {Ctx} _.
Arguments client_ctx {Ctx} _.
Arguments client_token {Ctx} _.

(** [googleapi.Service]: the API handle around the client. *)
Record Service (Ctx : Type) := {
  svc_client : HttpClient Ctx
}.
Arguments svc_client {Ctx} _.

(** The metrics registry [metrics.M]: two counter vectors keyed by the
    provider label. *)
Record Metrics := {
  AuthValid : gmap string nat;
  AuthExchange : gmap string nat
}.

(** [vec.WithLabelValues(label).Inc()]. *)
Definition counter_inc (label : string) (vec : gmap string nat) : gmap string nat :=
  <[label := S (default 0%nat (vec !! label))]> vec.

(** What the libraries do for the provider.  Every call may change the world
    (the network, the token source of a client); [Token_Valid] only reads the
    clock. *)
Record Backend (Ctx W : Type) := {
  (** [token.Valid()] *)
  Token_Valid : Token → W → bool;
  (** [googleapi.NewService(ctx, option.WithHTTPClient(client))] *)
  NewService : Ctx → HttpClient Ctx → W → result (Service Ctx) * W;
  (** [t := svc.Tokeninfo(); t.AccessToken(a); t.Do()] *)
  Tokeninfo_Do : Service Ctx → string → W → result Tokeninfo * W;
  (** [svc.Userinfo.Get().Do()] *)
  Userinfo_Get_Do : Service Ctx → W → result Userinfo * W;
  (** [http.NewRequestWithContext(ctx, method, url, http.NoBody)] *)
  NewRequestWithContext : Ctx → string → string → result Request;
  (** [client.Do(req)]: an error when no response was obtained; a response
      of any status otherwise. *)
  Client_Do : HttpClient Ctx → Request → W → result Response * W;
  (** [resp.Body.Close()] *)
  Body_Close : Response → W → W;
  (** [config.Exchange(ctx, code)], a token and an error as Go returns them. *)
  Config_Exchange : OauthConfig → Ctx → string → W → (option Token * option error) * W
}.
Arguments Token_Valid {Ctx W} _.
Arguments NewService {Ctx W} _.
Arguments Tokeninfo_Do {Ctx W} _.
Arguments Userinfo_Get_Do {Ctx W} _.
Arguments NewRequestWithContext {Ctx W} _.
Arguments Client_Do {Ctx W} _.
Arguments Body_Close {Ctx W} _.
Arguments Config_Exchange {Ctx W} _.

(** The state a method runs in: the world of the libraries and the metrics
    registry of the process. *)
Record State (W : Type) := {
  world : W;
  metrics : Metrics
}.
Arguments world {W} _.
Arguments metrics {W} _.
Arguments Build_State {W} _ _.

(** A method body: from the state before to its result and the state after. *)
Definition M (W A : Type) : Type := State W → A * State W.

Global Instance M_ret {W} : MRet (M W) := λ A a s, (a, s).
Global Instance M_bind {W} : MBind (M W) :=
  λ A B f m s, let '(a, s') := m s in f a s'.

(** A library call: it acts on the world and leaves the metrics alone. *)
Definition call {W A} (op : W → A * W) : M W A :=
  λ s, let '(a, w) := op (world s) in (a, Build_State w (metrics s)).

(** Reading the world. *)
Definition peek {W A} (f : W → A) : M W A := λ s, (f (world s), s).

(** [metrics.M.AuthValid.WithLabelValues(label).Inc()] and the same on
    [AuthExchange]. *)
Definition inc_AuthValid {W} (label : string) : M W unit :=
  λ s, (tt, Build_State (world s)
              {| AuthValid := counter_inc label (AuthValid (metrics s));
                 AuthExchange := AuthExchange (metrics s) |}).

Definition inc_AuthExchange {W} (label : string) : M W unit :=
  λ s, (tt, Build_State (world s)
              {| AuthValid := AuthValid (metrics s);
                 AuthExchange := counter_inc label (AuthExchange (metrics s)) |}).

(** [oauth2.Config.AuthCodeURL(state, opts...)]: [response_type] and
    [client_id] always, [redirect_uri] and [state] when not empty, [scope]
    when there are scopes, then every option sets its key. *)
Definition set_unless_empty (k v : string) (q : Values) : Values :=
  if String.eqb v "" then q else <[k := [v]]> q.

Definition setValue (o : AuthCodeOption) (q : Values) : Values :=
  match o with SetAuthURLParam k v => <[k := [v]]> q end.

Definition join_scopes (l : list string) : string :=
  match l with
  | [] => ""
  | x :: xs => foldl (λ acc y, acc +:+ " " +:+ y) x xs
  end.

Definition AuthCodeURL (c : OauthConfig) (state : string)
    (opts : list AuthCodeOption) : AuthorizationURL :=
  let v : Values := {[ "response_type" := ["code"]; "client_id" := [ClientID c] ]} in
  let v := set_unless_empty "redirect_uri" (RedirectURL c) v in
  let v := if (0 <? length (Scopes c))%nat
           then <["scope" := [join_scopes (Scopes c)]]> v else v in
  let v := set_unless_empty "state" state v in
  {| url_endpoint := AuthURL (OauthEndpoint c);
     url_query := foldl (λ q o, setValue o q) v opts |}.

Section Google.
Context {Ctx W : Type}.
(** [google.Endpoint] and the two scopes of [googleapi]. *)
Variable google_Endpoint : Endpoint.
Variables UserinfoEmailScope UserinfoProfileScope : string.
Variable B : Backend Ctx W.

(** [New]: the provider of a configuration, or the error. *)
Definition New (c : Auth) : result Config :=
  let uw := foldl (λ (m : gmap string bool) u, <[u := true]> m) ∅ (UsersWhitelist c) in
  if String.eqb (map_get_string (ProviderOpts c) "domain") "" && (size uw =? 0)%nat
  then Err "either Google Apps domain or users whitelist must be specified"
  else Ok {| config := {| ClientID := OauthClientID c;
                          ClientSecret := OauthClientSecret c;
                          RedirectURL := OauthCallbackURL c;
                          OauthEndpoint := google_Endpoint;
                          Scopes := [UserinfoEmailScope; UserinfoProfileScope] |};
             domain := map_get_string (ProviderOpts c) "domain";
             whitelist := uw |}.

Definition newClient (c : Config) (ctx : Ctx) (token : Token) : HttpClient Ctx :=
  {| client_config := config c; client_ctx := ctx; client_token := token |}.

Definition Name (c : Config) : string := name.

(** [Email]: the address of the user, or the empty string. *)
Definition Email (c : Config) (ctx : Ctx) (token : Token) : M W string :=
  r ← call (NewService B ctx (newClient c ctx token));
  match r with
  | Err _ => mret ""
  | Ok svc =>
      r ← call (Userinfo_Get_Do B svc);
      match r with
      | Err _ => mret ""
      | Ok ui => mret (UserEmail ui)
      end
  end.

(** [Valid]. *)
Definition Valid (c : Config) (ctx : Ctx) (token : Token) : M W bool :=
  reject ← (if (0 <? size (whitelist c))%nat
            then email ← Email c ctx token;
                 mret (negb (map_get_bool (whitelist c) email))
            else mret false);
  if reject : bool then mret false else
  valid ← peek (Token_Valid B token);
  if negb valid then mret false else
  r ← call (NewService B ctx (newClient c ctx token));
  match r with
  | Err _ => mret false
  | Ok svc =>
      r ← call (Tokeninfo_Do B svc (AccessToken token));
      match r with
      | Err _ => mret false
      | Ok ti =>
          if string_neq (Audience ti) (ClientID (config c)) then mret false else
          r ← call (Userinfo_Get_Do B svc);
          match r with
          | Err _ => mret false
          | Ok ui =>
              if string_neq (domain c) "" && string_neq (Hd ui) (domain c)
              then mret false
              else _ ← inc_AuthValid "google"; mret true
          end
      end
  end.

(** [Revoke]: [None] is Go's [nil] error. *)
Definition Revoke (c : Config) (ctx : Ctx) (token : Token) : M W (option error) :=
  let client := newClient c ctx token in
  let u := revokeURL (AccessToken token) in
  match NewRequestWithContext B ctx "GET" u with
  | Err e => mret (Some e)
  | Ok req =>
      r ← call (Client_Do B client req);
      match r with
      | Err e => mret (Some e)
      | Ok resp => _ ← call (λ w, (tt, Body_Close B resp w)); mret None
      end
  end.

(** [StartSession]. *)
Definition StartSession (c : Config) (state : string) : AuthorizationURL :=
  AuthCodeURL (config c) state [SetAuthURLParam "hd" (domain c)].

(** [Exchange]. *)
Definition Exchange (c : Config) (ctx : Ctx) (code : string)
    : M W (option Token * option error) :=
  '(t, err) ← call (Config_Exchange B (config c) ctx code);
  _ ← (if err is None then inc_AuthExchange "google" else mret tt);
  mret (t, err).

(** [strings.Split(c.Email(ctx, token), "@")[0]]; [None] stands for the
    panic of an index out of range. *)
Definition Username (c : Config) (ctx : Ctx) (token : Token) : M W (option string) :=
  email ← Email c ctx token;
  mret (Split email "@"%char !! 0%nat).

End Google.

(** ** Vocabulary of the statements *)

(** The byte [ch] occurs in [s]. *)
Fixpoint occurs (ch : ascii) (s : string) : bool :=
  match s with
  | EmptyString => false
  | String x rest => Ascii.eqb x ch || occurs ch rest
  end.

(** The value of the counter of [label] in a counter vector. *)
Definition count (label : string) (vec : gmap string nat) : nat :=
  default 0%nat (vec !! label).

(** The configuration's domain option is empty: absent, or the empty string. *)
Definition no_domain_option (a : Auth) : Prop :=
  ProviderOpts a !! "domain" = None ∨ ProviderOpts a !! "domain" = Some "".

(** The address [email] is in the whitelist of the provider: [c.whitelist[email]]
    is [true]. *)
Definition in_whitelist (c : Config) (email : string) : Prop :=
  map_get_bool (whitelist c) email = true.

Section Stages.
Context {Ctx W : Type} (B : Backend Ctx W).

(** The whitelist check of [Valid], run in [s], let the token through and
    left the state [s1]: no whitelist is configured and nothing was done,
    or the address [Email] derived is in the whitelist. *)
Definition whitelist_passed (c : Config) (ctx : Ctx) (token : Token)
    (s s1 : State W) : Prop :=
  (size (whitelist c) = 0%nat ∧ s1 = s) ∨
  ((0 < size (whitelist c))%nat ∧
   ∃ email, Email B c ctx token s = (email, s1) ∧ in_whitelist c email).

(** The metrics after one more validation, and after one more exchange. *)
Definition validated (m : Metrics) : Metrics :=
  {| AuthValid := counter_inc "google" (AuthValid m);
     AuthExchange := AuthExchange m |}.

Definition exchanged (m : Metrics) : Metrics :=
  {| AuthValid := AuthValid m;
     AuthExchange := counter_inc "google" (AuthExchange m) |}.
End Stages.

(** ** A backend with fixed answers

    Every call answers what the record says and writes its name to the world,
    which is the log of the calls made so far. *)
Record Canned := {
  canned_clock_ok : bool;
  canned_service : option error;
  canned_tokeninfo : result Tokeninfo;
  canned_userinfo : result Userinfo;
  canned_request : option error;
  canned_response : result Response;
  canned_exchange : option Token * option error
}.

Definition canned (k : Canned) : Backend unit (list string) := {|
  Token_Valid := λ _ _, canned_clock_ok k;
  NewService := λ _ cl w,
    (match canned_service k with
     | Some e => Err e
     | None => Ok {| svc_client := cl |}
     end, w ++ ["NewService"]);
  Tokeninfo_Do := λ _ _ w, (canned_tokeninfo k, w ++ ["Tokeninfo.Do"]);
  Userinfo_Get_Do := λ _ w, (canned_userinfo k, w ++ ["Userinfo.Get.Do"]);
  NewRequestWithContext := λ _ m u,
    match canned_request k with
    | Some e => Err e
    | None => Ok {| req_method := m; req_url := u |}
    end;
  Client_Do := λ _ _ w, (canned_response k, w ++ ["Client.Do"]);
  Body_Close := λ _ w, w ++ ["Body.Close"];
  Config_Exchange := λ _ _ _ w, (canned_exchange k, w ++ ["Config.Exchange"])
|}.

(** The data of the examples. *)
Definition example_endpoint : Endpoint :=
  {| AuthURL := "https://accounts.example/auth"; TokenURL := "https://accounts.example/token" |}.

Definition example_New : Auth → result Config :=
  New example_endpoint "scope.email" "scope.profile".

Definition example_token : Token :=
  {| AccessToken := "ya29.token"; TokenType := "Bearer"; RefreshToken := ""; Expiry := 0 |}.

Definition fresh_state : State (list string) :=
  {| world := []; metrics := {| AuthValid := ∅; AuthExchange := ∅ |} |}.

(** A configuration with a domain and a whitelist, and the provider [New]
    builds from it. *)
Definition alice_auth : Auth :=
  {| OauthClientID := "cashier-client";
     OauthClientSecret := "secret";
     OauthCallbackURL := "https://cashier.example/callback";
     ProviderOpts := {[ "domain" := "example.com" ]};
     UsersWhitelist := ["alice@example.com"] |}.

Definition alice_provider : Config :=
  {| config := {| ClientID := "cashier-client";
                  ClientSecret := "secret";
                  RedirectURL := "https://cashier.example/callback";
                  OauthEndpoint := example_endpoint;
                  Scopes := ["scope.email"; "scope.profile"] |};
     domain := "example.com";
     whitelist := {[ "alice@example.com" := true ]} |}.

(** The answers of a backend on which every call succeeds, for a user with
    the address [email] in the domain [hd] and a token minted for [aud]. *)
Definition answers (email hd aud : string) (status : Z) : Canned :=
  {| canned_clock_ok := true;
     canned_service := None;
     canned_tokeninfo := Ok {| Audience := aud |};
     canned_userinfo := Ok {| UserEmail := email; Hd := hd |};
     canned_request := None;
     canned_response := Ok {| StatusCode := status |};
     canned_exchange := (Some example_token, None) |}.

(** Alice's token was minted for cashier, but her account is in another
    domain than the one the provider is configured with. *)
Definition other_domain_backend : Backend unit (list string) :=
  canned (answers "alice@example.com" "other.com" "cashier-client" 200).

(** Alice's account is in the configured domain. *)
Definition same_domain_backend : Backend unit (list string) :=
  canned (answers "alice@example.com" "example.com" "cashier-client" 200).

(** Alice's token was minted for another application. *)
Definition other_audience_backend : Backend unit (list string) :=
  canned (answers "alice@example.com" "example.com" "some-other-app" 200).

(** The revocation endpoint answers 400: the token was not revoked. *)
Definition refusing_backend : Backend unit (list string) :=
  canned (answers "alice@example.com" "example.com" "cashier-client" 400).

(** The network is down: no call of the API gets an answer. *)
Definition unreachable : Canned :=
  {| canned_clock_ok := true;
     canned_service := None;
     canned_tokeninfo := Err "dial tcp: i/o timeout";
     canned_userinfo := Err "dial tcp: i/o timeout";
     canned_request := None;
     canned_response := Err "dial tcp: i/o timeout";
     canned_exchange := (None, Some "dial tcp: i/o timeout") |}.

(** A provider with a domain and no whitelist, and one with a whitelist and
    no domain. *)
Definition domain_provider : Config :=
  {| config := config alice_provider; domain := "example.com"; whitelist := ∅ |}.

Definition whitelist_only_auth : Auth :=
  {| OauthClientID := "cashier-client";
     OauthClientSecret := "secret";
     OauthCallbackURL := "https://cashier.example/callback";
     ProviderOpts := ∅;
     UsersWhitelist := ["alice@example.com"] |}.

(** The state after [Email] has run once from [fresh_state]. *)
Definition after_email : State (list string) :=
  {| world := ["NewService"; "Userinfo.Get.Do"]; metrics := metrics fresh_state |}.

Definition alice_service : Service unit :=
  {| svc_client := newClient alice_provider tt example_token |}.

(** ** More vocabulary: joining, and backends compared *)

(** [strings.Join(pieces, sep)] for a separator of one byte. *)
Fixpoint Join (pieces : list string) (sep : ascii) : string :=
  match pieces with
  | [] => ""
  | piece :: rest =>
      match rest with
      | [] => piece
      | _ :: _ => piece +:+ String sep (Join rest sep)
      end
  end.

(** The answers of the calls [Valid] and [Email] make do not depend on the
    world they are made in: the backend answers the same thing every time. *)
Definition stateless {Ctx W : Type} (B : Backend Ctx W) : Prop :=
  (∀ token w w', Token_Valid B token w = Token_Valid B token w')
  ∧ (∀ ctx cl w w', (NewService B ctx cl w).1 = (NewService B ctx cl w').1)
  ∧ (∀ svc a w w', (Tokeninfo_Do B svc a w).1 = (Tokeninfo_Do B svc a w').1)
  ∧ (∀ svc w w', (Userinfo_Get_Do B svc w).1 = (Userinfo_Get_Do B svc w').1).

(** Two backends that agree on the token check and on the three calls of
    the Google API, whatever their HTTP client and their code exchange do. *)
Definition same_API {Ctx W : Type} (B B' : Backend Ctx W) : Prop :=
  (∀ token w, Token_Valid B token w = Token_Valid B' token w)
  ∧ (∀ ctx cl w, NewService B ctx cl w = NewService B' ctx cl w)
  ∧ (∀ svc a w, Tokeninfo_Do B svc a w = Tokeninfo_Do B' svc a w)
  ∧ (∀ svc w, Userinfo_Get_Do B svc w = Userinfo_Get_Do B' svc w).

(** A configuration that lists Alice twice, after Bob. *)
Definition team_auth : Auth :=
  {| OauthClientID := "cashier-client";
     OauthClientSecret := "secret";
     OauthCallbackURL := "https://cashier.example/callback";
     ProviderOpts := ∅;
     UsersWhitelist := ["bob@example.com"; "alice@example.com"; "alice@example.com"] |}.

(** The same users, each once and in another order. *)
Definition team_auth_sorted : Auth :=
  {| OauthClientID := "cashier-client";
     OauthClientSecret := "secret";
     OauthCallbackURL := "https://cashier.example/callback";
     ProviderOpts := ∅;
     UsersWhitelist := ["alice@example.com"; "bob@example.com"] |}.

(** ** Every check of [Valid], and a backend that loses a request *)

Section Checks.
Context {Ctx W : Type} (B : Backend Ctx W).

(** Every check of [Valid] passes on the run from [s]: the whitelist check
    passed, the token is valid locally, the service was built, the token
    information came back with the client id of the provider as its audience,
    the user information came back, and no domain is configured or the
    reported domain is the configured one. *)
Definition all_checks_pass (c : Config) (ctx : Ctx) (token : Token)
    (s : State W) : Prop :=
  ∃ s1 svc w2 ti w3 ui w4,
    whitelist_passed B c ctx token s s1
    ∧ Token_Valid B token (world s1) = true
    ∧ NewService B ctx (newClient c ctx token) (world s1) = (Ok svc, w2)
    ∧ Tokeninfo_Do B svc (AccessToken token) w2 = (Ok ti, w3)
    ∧ Audience ti = ClientID (config c)
    ∧ Userinfo_Get_Do B svc w3 = (Ok ui, w4)
    ∧ (domain c = "" ∨ Hd ui = domain c).
End Checks.

(** A configuration whose whitelist holds the empty address and that has no
    domain, and the provider [New] builds from it. *)
Definition blank_auth : Auth :=
  {| OauthClientID := "cashier-client";
     OauthClientSecret := "secret";
     OauthCallbackURL := "https://cashier.example/callback";
     ProviderOpts := ∅;
     UsersWhitelist := [""] |}.

Definition blank_provider : Config :=
  {| config := config alice_provider; domain := ""; whitelist := {[ "" := true ]} |}.

Definition blank_service : Service unit :=
  {| svc_client := newClient blank_provider tt example_token |}.

(** A backend that loses the first request for the user information and
    answers every other call as [same_domain_backend] does. *)
Definition flaky_backend : Backend unit (list string) :=
  {| Token_Valid := Token_Valid same_domain_backend;
     NewService := NewService same_domain_backend;
     Tokeninfo_Do := Tokeninfo_Do same_domain_backend;
     Userinfo_Get_Do := λ svc w,
       if bool_decide ("Userinfo.Get.Do" ∈ w)
       then Userinfo_Get_Do same_domain_backend svc w
       else (Err "dial tcp: i/o timeout", w ++ ["Userinfo.Get.Do"]);
     NewRequestWithContext := NewRequestWithContext same_domain_backend;
     Client_Do := Client_Do same_domain_backend;
     Body_Close := Body_Close same_domain_backend;
     Config_Exchange := Config_Exchange same_domain_backend |}.

(** [context.Context], as far as cancellation goes. *)
Inductive Context :=
| Live
| Cancelled.

(** The backend with fixed answers, for these contexts.  The request of
    [Revoke] and the code exchange are given the context and fail when it is
    cancelled.  [Valid] hands its context to the construction of the client
    and of the service only; the requests for the token information and for
    the user information are sent without one, so their answers do not depend
    on it. *)
Definition heedless (k : Canned) : Backend Context (list string) := {|
  Token_Valid := λ _ _, canned_clock_ok k;
  NewService := λ _ cl w,
    (match canned_service k with
     | Some e => Err e
     | None => Ok {| svc_client := cl |}
     end, w ++ ["NewService"]);
  Tokeninfo_Do := λ _ _ w, (canned_tokeninfo k, w ++ ["Tokeninfo.Do"]);
  Userinfo_Get_Do := λ _ w, (canned_userinfo k, w ++ ["Userinfo.Get.Do"]);
  NewRequestWithContext := λ _ m u,
    match canned_request k with
    | Some e => Err e
    | None => Ok {| req_method := m; req_url := u |}
    end;
  Client_Do := λ cl _ w,
    (match client_ctx cl with
     | Cancelled => Err "context canceled"
     | Live => canned_response k
     end, w ++ ["Client.Do"]);
  Body_Close := λ _ w, w ++ ["Body.Close"];
  Config_Exchange := λ _ ctx _ w,
    (match ctx with
     | Cancelled => (None, Some "context canceled")
     | Live => canned_exchange k
     end, w ++ ["Config.Exchange"])
|}.

(** ** Tactics for the runs *)

Ltac unfold_M :=
  unfold mbind, M_bind, mret, M_ret, call, peek, inc_AuthValid, inc_AuthExchange.

(** Opens [Valid] in the goal after a whitelist check that passed. *)
Ltac enter_Valid Hpass :=
  let Hsz := fresh "Hsz" in
  let Hem := fresh "Hem" in
  let Hin := fresh "Hin" in
  unfold Valid; unfold_M;
  destruct Hpass as [[Hsz ->] | [Hsz (? & Hem & Hin)]];
  [ rewrite Hsz; cbn [Nat.ltb Nat.leb]
  | apply Nat.ltb_lt in Hsz; rewrite Hsz, Hem, Hin; cbn [negb] ].

(** * Properties *)

(** ** Strings and maps *)

Lemma Split_cons (s : string) (sep : ascii) :
  ∃ piece pieces, Split s sep = piece :: pieces.
Proof.
  induction s as [|ch rest IH]; simpl; [by eauto|].
  destruct (Ascii.eqb ch sep); [by eauto|].
  destruct IH as (piece & pieces & ->). by eauto.
Qed.

Lemma Split_no_sep (s : string) (sep : ascii) :
  occurs sep s = false → Split s sep = [s].
Proof.
  induction s as [|ch rest IH]; simpl; [done|].
  intros [Hch Hrest]%orb_false_iff.
  rewrite Hch, (IH Hrest). done.
Qed.

Lemma Split_at_first_sep (user rest : string) (sep : ascii) :
  occurs sep user = false →
  Split (user +:+ String sep rest) sep = user :: Split rest sep.
Proof.
  induction user as [|ch user IH]; simpl.
  - intros _. by rewrite Ascii.eqb_refl.
  - intros [Hch Huser]%orb_false_iff.
    rewrite Hch, (IH Huser). done.
Qed.

Lemma string_neq_false (a b : string) : string_neq a b = false ↔ a = b.
Proof.
  unfold string_neq. rewrite negb_false_iff. apply String.eqb_eq.
Qed.

Lemma string_neq_true (a b : string) : string_neq a b = true ↔ a ≠ b.
Proof.
  unfold string_neq. rewrite negb_true_iff. apply String.eqb_neq.
Qed.

(** The map [New] builds from the list of whitelisted users. *)
Lemma whitelist_fold_lookup (l : list string) (m : gmap string bool) (u : string) :
  foldl (λ (m : gmap string bool) u, <[u := true]> m) m l !! u
  = if decide (u ∈ l) then Some true else m !! u.
Proof.
  revert m. induction l as [|x l IH]; intros m; cbn [foldl].
  - rewrite decide_False; [done | by apply not_elem_of_nil].
  - rewrite IH. destruct (decide (u ∈ l)) as [Hin|Hnin].
    + rewrite decide_True; [done | by right].
    + destruct (decide (u = x)) as [->|Hne].
      * rewrite decide_True by left. by rewrite lookup_insert_eq.
      * rewrite decide_False; [by rewrite lookup_insert_ne|].
        by intros [?|?]%elem_of_cons.
Qed.

Lemma whitelist_fold_size (l : list string) :
  size (foldl (λ (m : gmap string bool) u, <[u := true]> m) ∅ l) = 0%nat ↔ l = [].
Proof.
  split; [|by intros ->].
  intros Hsize%map_size_empty_iff. destruct l as [|x l]; [done|].
  pose proof (whitelist_fold_lookup (x :: l) ∅ x) as Hx.
  rewrite Hsize, lookup_empty, decide_True in Hx by left. done.
Qed.

Lemma count_counter_inc (label l : string) (vec : gmap string nat) :
  count l (counter_inc label vec)
  = if decide (l = label) then S (count l vec) else count l vec.
Proof.
  unfold count, counter_inc. destruct (decide (l = label)) as [->|Hne].
  - by rewrite lookup_insert_eq.
  - by rewrite lookup_insert_ne.
Qed.

Lemma map_get_string_empty (a : Auth) :
  map_get_string (ProviderOpts a) "domain" = "" ↔ no_domain_option a.
Proof.
  unfold map_get_string, no_domain_option.
  destruct (ProviderOpts a !! "domain") as [d|]; simpl.
  - split; [intros ->; by right | intros [?|[= ->]]; done].
  - split; [by left | done].
Qed.

(** ** The runs of [Valid] *)

Section Runs.
Context {Ctx W : Type} (B : Backend Ctx W).
Implicit Types (c : Config) (ctx : Ctx) (token : Token) (s : State W).

Lemma Email_metrics c ctx token s :
  metrics (Email B c ctx token s).2 = metrics s.
Proof.
  unfold Email; unfold_M.
  destruct (NewService B ctx (newClient c ctx token) (world s)) as [[svc|e] w]; [|done].
  cbn. destruct (Userinfo_Get_Do B svc w) as [[ui|e] w']; done.
Qed.

Lemma whitelist_passed_metrics c ctx token s s1 :
  whitelist_passed B c ctx token s s1 → metrics s1 = metrics s.
Proof.
  intros [[_ ->] | [_ (email & Hem & _)]]; [done|].
  pose proof (Email_metrics c ctx token s) as H. by rewrite Hem in H.
Qed.

Lemma Valid_whitelist_reject c ctx token s email s1 :
  (0 < size (whitelist c))%nat →
  Email B c ctx token s = (email, s1) →
  map_get_bool (whitelist c) email = false →
  Valid B c ctx token s = (false, s1).
Proof.
  intros Hsz%Nat.ltb_lt Hem Hout. unfold Valid; unfold_M.
  by rewrite Hsz, Hem, Hout.
Qed.

Lemma Valid_token_reject c ctx token s s1 :
  whitelist_passed B c ctx token s s1 →
  Token_Valid B token (world s1) = false →
  Valid B c ctx token s = (false, s1).
Proof. intros Hpass Hv. enter_Valid Hpass; by rewrite Hv. Qed.

Lemma Valid_service_error c ctx token s s1 e w2 :
  whitelist_passed B c ctx token s s1 →
  Token_Valid B token (world s1) = true →
  NewService B ctx (newClient c ctx token) (world s1) = (Err e, w2) →
  Valid B c ctx token s = (false, Build_State w2 (metrics s1)).
Proof. intros Hpass Hv Hns. enter_Valid Hpass; by rewrite Hv; cbn; rewrite Hns. Qed.

Lemma Valid_tokeninfo_error c ctx token s s1 svc w2 e w3 :
  whitelist_passed B c ctx token s s1 →
  Token_Valid B token (world s1) = true →
  NewService B ctx (newClient c ctx token) (world s1) = (Ok svc, w2) →
  Tokeninfo_Do B svc (AccessToken token) w2 = (Err e, w3) →
  Valid B c ctx token s = (false, Build_State w3 (metrics s1)).
Proof.
  intros Hpass Hv Hns Hti.
  enter_Valid Hpass; by rewrite Hv; cbn; rewrite Hns; cbn; rewrite Hti.
Qed.

Lemma Valid_audience_reject c ctx token s s1 svc w2 ti w3 :
  whitelist_passed B c ctx token s s1 →
  Token_Valid B token (world s1) = true →
  NewService B ctx (newClient c ctx token) (world s1) = (Ok svc, w2) →
  Tokeninfo_Do B svc (AccessToken token) w2 = (Ok ti, w3) →
  Audience ti ≠ ClientID (config c) →
  Valid B c ctx token s = (false, Build_State w3 (metrics s1)).
Proof.
  intros Hpass Hv Hns Hti Haud%string_neq_true.
  enter_Valid Hpass; by rewrite Hv; cbn; rewrite Hns; cbn; rewrite Hti; cbn; rewrite Haud.
Qed.

Lemma Valid_userinfo_error c ctx token s s1 svc w2 ti w3 e w4 :
  whitelist_passed B c ctx token s s1 →
  Token_Valid B token (world s1) = true →
  NewService B ctx (newClient c ctx token) (world s1) = (Ok svc, w2) →
  Tokeninfo_Do B svc (AccessToken token) w2 = (Ok ti, w3) →
  Audience ti = ClientID (config c) →
  Userinfo_Get_Do B svc w3 = (Err e, w4) →
  Valid B c ctx token s = (false, Build_State w4 (metrics s1)).
Proof.
  intros Hpass Hv Hns Hti Haud%string_neq_false Hui.
  enter_Valid Hpass;
    by rewrite Hv; cbn; rewrite Hns; cbn; rewrite Hti; cbn; rewrite Haud; cbn; rewrite Hui.
Qed.

Lemma Valid_domain_reject c ctx token s s1 svc w2 ti w3 ui w4 :
  whitelist_passed B c ctx token s s1 →
  Token_Valid B token (world s1) = true →
  NewService B ctx (newClient c ctx token) (world s1) = (Ok svc, w2) →
  Tokeninfo_Do B svc (AccessToken token) w2 = (Ok ti, w3) →
  Audience ti = ClientID (config c) →
  Userinfo_Get_Do B svc w3 = (Ok ui, w4) →
  domain c ≠ "" → Hd ui ≠ domain c →
  Valid B c ctx token s = (false, Build_State w4 (metrics s1)).
Proof.
  intros Hpass Hv Hns Hti Haud%string_neq_false Hui Hd1%string_neq_true Hd2%string_neq_true.
  enter_Valid Hpass;
    by rewrite Hv; cbn; rewrite Hns; cbn; rewrite Hti; cbn; rewrite Haud; cbn;
       rewrite Hui; cbn; rewrite Hd1, Hd2.
Qed.

Lemma Valid_accept c ctx token s s1 svc w2 ti w3 ui w4 :
  whitelist_passed B c ctx token s s1 →
  Token_Valid B token (world s1) = true →
  NewService B ctx (newClient c ctx token) (world s1) = (Ok svc, w2) →
  Tokeninfo_Do B svc (AccessToken token) w2 = (Ok ti, w3) →
  Audience ti = ClientID (config c) →
  Userinfo_Get_Do B svc w3 = (Ok ui, w4) →
  domain c = "" ∨ Hd ui = domain c →
  Valid B c ctx token s = (true, Build_State w4 (validated (metrics s1))).
Proof.
  intros Hpass Hv Hns Hti Haud%string_neq_false Hui Hdom.
  assert (string_neq (domain c) "" && string_neq (Hd ui) (domain c) = false) as Hd.
  { apply andb_false_iff. destruct Hdom as [H|H]; [left|right]; by apply string_neq_false. }
  enter_Valid Hpass;
    by rewrite Hv; cbn; rewrite Hns; cbn; rewrite Hti; cbn; rewrite Haud; cbn;
       rewrite Hui; cbn; rewrite Hd.
Qed.

(** Either the whitelist check rejects, or it passes. *)
Lemma whitelist_check_cases c ctx token s :
  (∃ email s1, (0 < size (whitelist c))%nat ∧ Email B c ctx token s = (email, s1) ∧
               map_get_bool (whitelist c) email = false) ∨
  (∃ s1, whitelist_passed B c ctx token s s1).
Proof.
  destruct (decide (size (whitelist c) = 0%nat)) as [Hz|Hnz].
  - right. exists s. by left.
  - destruct (Email B c ctx token s) as [email s1] eqn:Hem.
    destruct (map_get_bool (whitelist c) email) eqn:Hin.
    + right. exists s1. right. split; [lia|]. by exists email.
    + left. exists email, s1. split; [lia|done].
Qed.

(** What a run of [Valid] that answers [true] went through. *)
Lemma Valid_true_inv c ctx token s s' :
  Valid B c ctx token s = (true, s') →
  ∃ s1 svc w2 ti w3 ui w4,
    whitelist_passed B c ctx token s s1 ∧
    Token_Valid B token (world s1) = true ∧
    NewService B ctx (newClient c ctx token) (world s1) = (Ok svc, w2) ∧
    Tokeninfo_Do B svc (AccessToken token) w2 = (Ok ti, w3) ∧
    Audience ti = ClientID (config c) ∧
    Userinfo_Get_Do B svc w3 = (Ok ui, w4) ∧
    (domain c = "" ∨ Hd ui = domain c) ∧
    s' = Build_State w4 (validated (metrics s1)).
Proof.
  intros Hrun.
  destruct (whitelist_check_cases c ctx token s) as [(em & s1 & Hsz & Hem & Hout)|[s1 Hpass]].
  { by rewrite (Valid_whitelist_reject _ _ _ _ _ _ Hsz Hem Hout) in Hrun. }
  destruct (Token_Valid B token (world s1)) eqn:Hv;
    [|by rewrite (Valid_token_reject _ _ _ _ _ Hpass Hv) in Hrun].
  destruct (NewService B ctx (newClient c ctx token) (world s1)) as [[svc|e] w2] eqn:Hns;
    [|by rewrite (Valid_service_error _ _ _ _ _ _ _ Hpass Hv Hns) in Hrun].
  destruct (Tokeninfo_Do B svc (AccessToken token) w2) as [[ti|e] w3] eqn:Hti;
    [|by rewrite (Valid_tokeninfo_error _ _ _ _ _ _ _ _ _ Hpass Hv Hns Hti) in Hrun].
  destruct (decide (Audience ti = ClientID (config c))) as [Haud|Haud];
    [|by rewrite (Valid_audience_reject _ _ _ _ _ _ _ _ _ Hpass Hv Hns Hti Haud) in Hrun].
  destruct (Userinfo_Get_Do B svc w3) as [[ui|e] w4] eqn:Hui;
    [|by rewrite (Valid_userinfo_error _ _ _ _ _ _ _ _ _ _ _ Hpass Hv Hns Hti Haud Hui) in Hrun].
  destruct (decide (domain c = "")) as [Hd1|Hd1];
    [|destruct (decide (Hd ui = domain c)) as [Hd2|Hd2]].
  3: by rewrite (Valid_domain_reject _ _ _ _ _ _ _ _ _ _ _ Hpass Hv Hns Hti Haud Hui Hd1 Hd2) in Hrun.
  all: exists s1, svc, w2, ti, w3, ui, w4; split_and!; auto.
  all: by erewrite Valid_accept in Hrun by eauto; injection Hrun as <-.
Qed.

(** A run of [Valid] that answers [false] leaves the metrics as they were. *)
Lemma Valid_false_metrics c ctx token s s' :
  Valid B c ctx token s = (false, s') → metrics s' = metrics s.
Proof.
  intros Hrun.
  destruct (whitelist_check_cases c ctx token s) as [(em & s1 & Hsz & Hem & Hout)|[s1 Hpass]].
  { rewrite (Valid_whitelist_reject _ _ _ _ _ _ Hsz Hem Hout) in Hrun.
    injection Hrun as <-. pose proof (Email_metrics c ctx token s) as H.
    by rewrite Hem in H. }
  pose proof (whitelist_passed_metrics _ _ _ _ _ Hpass) as Hm.
  destruct (Token_Valid B token (world s1)) eqn:Hv;
    [|by rewrite (Valid_token_reject _ _ _ _ _ Hpass Hv) in Hrun; injection Hrun as <-].
  destruct (NewService B ctx (newClient c ctx token) (world s1)) as [[svc|e] w2] eqn:Hns;
    [|by rewrite (Valid_service_error _ _ _ _ _ _ _ Hpass Hv Hns) in Hrun; injection Hrun as <-].
  destruct (Tokeninfo_Do B svc (AccessToken token) w2) as [[ti|e] w3] eqn:Hti;
    [|by rewrite (Valid_tokeninfo_error _ _ _ _ _ _ _ _ _ Hpass Hv Hns Hti) in Hrun;
         injection Hrun as <-].
  destruct (decide (Audience ti = ClientID (config c))) as [Haud|Haud];
    [|by rewrite (Valid_audience_reject _ _ _ _ _ _ _ _ _ Hpass Hv Hns Hti Haud) in Hrun;
         injection Hrun as <-].
  destruct (Userinfo_Get_Do B svc w3) as [[ui|e] w4] eqn:Hui;
    [|by rewrite (Valid_userinfo_error _ _ _ _ _ _ _ _ _ _ _ Hpass Hv Hns Hti Haud Hui) in Hrun;
         injection Hrun as <-].
  destruct (decide (domain c = "")) as [Hd1|Hd1];
    [|destruct (decide (Hd ui = domain c)) as [Hd2|Hd2]].
  3: by rewrite (Valid_domain_reject _ _ _ _ _ _ _ _ _ _ _ Hpass Hv Hns Hti Haud Hui Hd1 Hd2) in Hrun;
        injection Hrun as <-.
  all: by erewrite Valid_accept in Hrun by eauto.
Qed.
End Runs.

(** ** The claims about [New], [StartSession] and [Username] *)

Section Construction.
(** [google.Endpoint] and the two scopes, whatever the libraries set them to. *)
Context (ep : Endpoint) (email_scope profile_scope : string).

Lemma New_whitelist (a : Auth) (c : Config) (u : string) :
  New ep email_scope profile_scope a = Ok c → in_whitelist c u ↔ u ∈ UsersWhitelist a.
Proof.
  unfold New. case_match; [done|]. intros [= <-].
  unfold in_whitelist, map_get_bool; cbn [whitelist].
  rewrite whitelist_fold_lookup, lookup_empty.
  destruct (decide (u ∈ UsersWhitelist a)); naive_solver.
Qed.

(** C4: [New] answers an error exactly when the domain option of the
    configuration is empty and its list of whitelisted users is empty.  In
    every other case it answers a provider, which carries the domain option,
    the client id and the whitelisted users of the configuration.  [New] is a
    function of the configuration alone: it takes no backend and no state, so
    it calls nothing on the network. *)
Theorem New_error_iff (a : Auth) :
  ((∃ e, New ep email_scope profile_scope a = Err e) ↔ no_domain_option a ∧ UsersWhitelist a = [])
  ∧ (¬ (no_domain_option a ∧ UsersWhitelist a = []) →
     ∃ c, New ep email_scope profile_scope a = Ok c
          ∧ domain c = map_get_string (ProviderOpts a) "domain"
          ∧ ClientID (config c) = OauthClientID a
          ∧ ∀ u, in_whitelist c u ↔ u ∈ UsersWhitelist a).
Proof.
  assert (∀ e, New ep email_scope profile_scope a = Err e → no_domain_option a ∧ UsersWhitelist a = []) as Herr.
  { intros e. unfold New. case_match eqn:Hguard; [|done]. intros _.
    apply andb_true_iff in Hguard as [Hdom%String.eqb_eq Hsz%Nat.eqb_eq].
    split; [by apply map_get_string_empty | by apply whitelist_fold_size]. }
  split; [split|].
  - intros [e He]. by eapply Herr.
  - intros [Hdom%map_get_string_empty Hwl].
    eexists. unfold New. rewrite Hwl, Hdom. done.
  - intros Hsome. destruct (New ep email_scope profile_scope a) as [c|e] eqn:Hnew.
    + exists c. split; [done|]. split_and!.
      * revert Hnew. unfold New. case_match; [done|]. by intros [= <-].
      * revert Hnew. unfold New. case_match; [done|]. by intros [= <-].
      * intros u. by apply New_whitelist.
    + destruct Hsome. by eapply Herr.
Qed.

(** C9: the URL of [StartSession] carries the parameter [hd] with the domain
    of the provider as its value, whatever the state string and whatever the
    domain: a provider built from a configuration with a whitelist and no
    domain option sends [hd] with the empty value. *)
Theorem StartSession_always_carries_hd (c : Config) (state : string) :
  url_query (StartSession c state) !! "hd" = Some [domain c]
  ∧ ∀ a, no_domain_option a → UsersWhitelist a ≠ [] →
      ∃ c', New ep email_scope profile_scope a = Ok c' ∧ url_query (StartSession c' state) !! "hd" = Some [""].
Proof.
  assert (∀ c0, url_query (StartSession c0 state) !! "hd" = Some [domain c0]) as Hhd.
  { intros c0. unfold StartSession, AuthCodeURL. cbn [url_query foldl setValue].
    apply lookup_insert_eq. }
  split; [apply Hhd|].
  intros a Hdom%map_get_string_empty Hwl.
  destruct (New ep email_scope profile_scope a) as [c'|e] eqn:Hnew.
  - exists c'. split; [done|]. rewrite Hhd. do 2 f_equal.
    revert Hnew. unfold New. case_match; [done|]. intros [= <-]. done.
  - revert Hnew. unfold New. case_match eqn:Hguard; [|done]. intros _.
    apply andb_true_iff in Hguard as [_ Hsz%Nat.eqb_eq].
    by apply whitelist_fold_size in Hsz.
Qed.
End Construction.

Section UsernameClaims.
Context {Ctx W : Type} (B : Backend Ctx W).
Implicit Types (c : Config) (ctx : Ctx) (token : Token) (s : State W).

Lemma Username_run c ctx token s :
  Username B c ctx token s
  = (Split (Email B c ctx token s).1 "@" !! 0%nat, (Email B c ctx token s).2).
Proof.
  unfold Username; unfold_M. by destruct (Email B c ctx token s).
Qed.

(** C7: when the address [Email] answers is [user], then the byte [@], then
    anything, and [user] holds no [@], [Username] answers [user]; when [Email]
    answers the empty string, so does [Username].  Both leave the state
    [Email] leaves. *)
Theorem Username_is_email_before_at c ctx token s :
  (∀ user rest,
     (Email B c ctx token s).1 = user +:+ "@" +:+ rest →
     occurs "@" user = false →
     Username B c ctx token s = (Some user, (Email B c ctx token s).2))
  ∧ ((Email B c ctx token s).1 = "" →
     Username B c ctx token s = (Some "", (Email B c ctx token s).2)).
Proof.
  split.
  - intros user rest Hemail Huser. rewrite Username_run, Hemail.
    change ("@" +:+ rest) with (String "@" rest).
    by rewrite Split_at_first_sep.
  - intros Hemail. by rewrite Username_run, Hemail.
Qed.

(** C10: [Username] never indexes out of range: whatever [Email] answers,
    the split has an element zero, and [Username] answers it.  When the
    address holds no [@], [Username] answers the whole address. *)
Theorem Username_never_panics c ctx token s :
  (∃ user, (Username B c ctx token s).1 = Some user)
  ∧ (occurs "@" (Email B c ctx token s).1 = false →
     (Username B c ctx token s).1 = Some (Email B c ctx token s).1).
Proof.
  rewrite Username_run; cbn [fst]. split.
  - destruct (Split_cons (Email B c ctx token s).1 "@") as (piece & pieces & ->).
    by exists piece.
  - intros Hno. by rewrite Split_no_sep.
Qed.
End UsernameClaims.

(** ** The claims about [Valid], [Revoke] and [Exchange] *)

Section ProviderClaims.
Context {Ctx W : Type} (B : Backend Ctx W).
Implicit Types (c : Config) (ctx : Ctx) (token : Token) (s : State W).

(** C1 (as amended): for a provider with a whitelist that is not empty,
    [Valid] answers [false] when the address [Email] derives is not in the
    whitelist.  When the address is in the whitelist, the token is valid
    locally, the backend confirms it and its audience is the client id of the
    provider, the domain is still compared: when the user information
    [Valid] asks for does not come back, [Valid] answers [false]; when it
    comes back, [Valid] answers [true] exactly when no domain is configured
    or the domain it reports is the configured one. *)
Theorem Valid_whitelist_then_domain c ctx token s email s1 :
  (0 < size (whitelist c))%nat →
  Email B c ctx token s = (email, s1) →
  (¬ in_whitelist c email → Valid B c ctx token s = (false, s1))
  ∧ (in_whitelist c email →
     ∀ svc w2 ti w3,
       Token_Valid B token (world s1) = true →
       NewService B ctx (newClient c ctx token) (world s1) = (Ok svc, w2) →
       Tokeninfo_Do B svc (AccessToken token) w2 = (Ok ti, w3) →
       Audience ti = ClientID (config c) →
       (∀ e w4,
          Userinfo_Get_Do B svc w3 = (Err e, w4) →
          (Valid B c ctx token s).1 = false)
       ∧ (∀ ui w4,
            Userinfo_Get_Do B svc w3 = (Ok ui, w4) →
            ((Valid B c ctx token s).1 = true ↔ domain c = "" ∨ Hd ui = domain c))).
Proof.
  intros Hsz Hem. split.
  - intros Hout%not_true_is_false. by eapply Valid_whitelist_reject.
  - intros Hin svc w2 ti w3 Hv Hns Hti Haud.
    assert (whitelist_passed B c ctx token s s1) as Hpass.
    { right. split; [done|]. by exists email. }
    split.
    + intros e w4 Hui.
      by rewrite (Valid_userinfo_error B c ctx token s s1 svc w2 ti w3 e w4).
    + intros ui w4 Hui. split.
      * intros Htrue.
        destruct (decide (domain c = "")) as [|Hd1]; [by left|].
        destruct (decide (Hd ui = domain c)) as [|Hd2]; [by right|].
        rewrite (Valid_domain_reject B c ctx token s s1 svc w2 ti w3 ui w4) in Htrue; done.
      * intros Hdom.
        by rewrite (Valid_accept B c ctx token s s1 svc w2 ti w3 ui w4).
Qed.

(** C2: the checks of [Valid] in their order.  Each check that fails ends
    the run with [false] in the state reached so far: no later call is made
    and no counter moves.  (1) the whitelist, when it is not empty, against
    the address of [Email]; (2) the local validity of the token; (3) the
    confirmation by the backend, which is the construction of the service and
    the token information; (4) the audience against the client id; (5) the
    user information and the domain it reports against the configured one,
    when one is configured.  When none fails, the answer is [true] and the
    validation counter has moved. *)
Theorem Valid_checks_in_order c ctx token s :
  (∀ email s1,
     (0 < size (whitelist c))%nat →
     Email B c ctx token s = (email, s1) →
     ¬ in_whitelist c email →
     Valid B c ctx token s = (false, s1))
  ∧ ∀ s1, whitelist_passed B c ctx token s s1 →
    (Token_Valid B token (world s1) = false →
     Valid B c ctx token s = (false, s1))
    ∧ (Token_Valid B token (world s1) = true →
       (∀ e w2,
          NewService B ctx (newClient c ctx token) (world s1) = (Err e, w2) →
          Valid B c ctx token s = (false, Build_State w2 (metrics s1)))
       ∧ ∀ svc w2,
         NewService B ctx (newClient c ctx token) (world s1) = (Ok svc, w2) →
         (∀ e w3,
            Tokeninfo_Do B svc (AccessToken token) w2 = (Err e, w3) →
            Valid B c ctx token s = (false, Build_State w3 (metrics s1)))
         ∧ ∀ ti w3,
           Tokeninfo_Do B svc (AccessToken token) w2 = (Ok ti, w3) →
           (Audience ti ≠ ClientID (config c) →
            Valid B c ctx token s = (false, Build_State w3 (metrics s1)))
           ∧ (Audience ti = ClientID (config c) →
              (∀ e w4,
                 Userinfo_Get_Do B svc w3 = (Err e, w4) →
                 Valid B c ctx token s = (false, Build_State w4 (metrics s1)))
              ∧ ∀ ui w4,
                Userinfo_Get_Do B svc w3 = (Ok ui, w4) →
                (domain c ≠ "" → Hd ui ≠ domain c →
                 Valid B c ctx token s = (false, Build_State w4 (metrics s1)))
                ∧ (domain c = "" ∨ Hd ui = domain c →
                   Valid B c ctx token s
                   = (true, Build_State w4 (validated (metrics s1)))))).
Proof.
  split.
  { intros email s1 Hsz Hem Hout%not_true_is_false. by eapply Valid_whitelist_reject. }
  intros s1 Hpass. split; [by apply Valid_token_reject|].
  intros Hv. split; [intros e w2 Hns; by eapply Valid_service_error|].
  intros svc w2 Hns. split; [intros e w3 Hti; by eapply Valid_tokeninfo_error|].
  intros ti w3 Hti. split; [intros Haud; by eapply Valid_audience_reject|].
  intros Haud. split; [intros e w4 Hui; by eapply Valid_userinfo_error|].
  intros ui w4 Hui. split.
  - intros Hd1 Hd2. by eapply Valid_domain_reject.
  - intros Hdom. by eapply Valid_accept.
Qed.

(** C3: when the audience the backend reports for the access token is never
    the client id of the provider, [Valid] answers [false], whatever the
    whitelist, the expiry of the token and the other answers of the backend. *)
Theorem Valid_rejects_foreign_audience c ctx token s :
  (∀ svc w ti w',
     Tokeninfo_Do B svc (AccessToken token) w = (Ok ti, w') →
     Audience ti ≠ ClientID (config c)) →
  (Valid B c ctx token s).1 = false.
Proof.
  intros Hforeign.
  destruct (Valid B c ctx token s) as [[] s'] eqn:Hrun; [|done].
  apply Valid_true_inv in Hrun
    as (s1 & svc & w2 & ti & w3 & ui & w4 & _ & _ & _ & Hti & Haud & _).
  by destruct (Hforeign svc w2 ti w3 Hti).
Qed.

(** An error inside [Email] gives the empty address, which the whitelist
    check rejects unless the whitelist holds the empty string. *)
Lemma Valid_email_error_rejected c ctx token s :
  (0 < size (whitelist c))%nat →
  ¬ in_whitelist c "" →
  (∃ e w, NewService B ctx (newClient c ctx token) (world s) = (Err e, w)) ∨
  (∃ svc w e w', NewService B ctx (newClient c ctx token) (world s) = (Ok svc, w) ∧
                 Userinfo_Get_Do B svc w = (Err e, w')) →
  (Valid B c ctx token s).1 = false.
Proof.
  intros Hsz Hout%not_true_is_false Herr.
  destruct (Email B c ctx token s) as [email s1] eqn:Hem.
  assert (email = "") as ->.
  { revert Hem. unfold Email; unfold_M.
    destruct Herr as [(e & w & ->)|(svc & w & e & w' & -> & Hui)]; cbn.
    - by intros [= <- _].
    - rewrite Hui. by intros [= <- _]. }
  by erewrite Valid_whitelist_reject.
Qed.

(** C5 (as amended): [Valid] answers a boolean and nothing else.  An error
    of any of the three calls it makes after the whitelist check makes the
    answer [false]: the construction of the service, the token information
    that confirms the token and gives its audience, and the user information;
    here [s1] is the state in which the whitelist check left the run.  An
    error inside [Email], which the whitelist check calls when the whitelist
    is not empty, makes the answer [false] when the empty address is not in
    the whitelist. *)
Theorem Valid_fails_closed c ctx token s :
  (∀ s1,
     whitelist_passed B c ctx token s s1 →
     (∀ e w2,
        NewService B ctx (newClient c ctx token) (world s1) = (Err e, w2) →
        (Valid B c ctx token s).1 = false)
     ∧ (∀ svc w2 e w3,
          NewService B ctx (newClient c ctx token) (world s1) = (Ok svc, w2) →
          Tokeninfo_Do B svc (AccessToken token) w2 = (Err e, w3) →
          (Valid B c ctx token s).1 = false)
     ∧ (∀ svc w2 ti w3 e w4,
          NewService B ctx (newClient c ctx token) (world s1) = (Ok svc, w2) →
          Tokeninfo_Do B svc (AccessToken token) w2 = (Ok ti, w3) →
          Userinfo_Get_Do B svc w3 = (Err e, w4) →
          (Valid B c ctx token s).1 = false))
  ∧ ((0 < size (whitelist c))%nat →
     ¬ in_whitelist c "" →
     (∀ e w,
        NewService B ctx (newClient c ctx token) (world s) = (Err e, w) →
        (Valid B c ctx token s).1 = false)
     ∧ (∀ svc w e w',
          NewService B ctx (newClient c ctx token) (world s) = (Ok svc, w) →
          Userinfo_Get_Do B svc w = (Err e, w') →
          (Valid B c ctx token s).1 = false)).
Proof.
  split.
  - intros s1 Hpass.
    destruct (Token_Valid B token (world s1)) eqn:Hv.
    2: { rewrite (Valid_token_reject B c ctx token s s1) by done. by split_and!. }
    split_and!.
    + intros e w2 Hns. by erewrite Valid_service_error.
    + intros svc w2 e w3 Hns Hti. by erewrite Valid_tokeninfo_error.
    + intros svc w2 ti w3 e w4 Hns Hti Hui.
      destruct (decide (Audience ti = ClientID (config c))) as [Haud|Haud].
      * by erewrite Valid_userinfo_error.
      * by erewrite Valid_audience_reject.
  - intros Hsz Hblank. split.
    + intros e w Hns. apply Valid_email_error_rejected; [done | done |].
      left. by exists e, w.
    + intros svc w e w' Hns Hui. apply Valid_email_error_rejected; [done | done |].
      right. by exists svc, w, e, w'.
Qed.

(** C6 (as amended): [Revoke] answers an error exactly when the request
    cannot be built or the client gets no response, and then it answers that
    very error.  When the client gets a response, [Revoke] answers [nil]
    whatever the status of the response. *)
Theorem Revoke_error_iff_no_response c ctx token s :
  (∀ e,
     NewRequestWithContext B ctx "GET" (revokeURL (AccessToken token)) = Err e →
     Revoke B c ctx token s = (Some e, s))
  ∧ ∀ req,
    NewRequestWithContext B ctx "GET" (revokeURL (AccessToken token)) = Ok req →
    (∀ e w,
       Client_Do B (newClient c ctx token) req (world s) = (Err e, w) →
       Revoke B c ctx token s = (Some e, Build_State w (metrics s)))
    ∧ (∀ resp w,
         Client_Do B (newClient c ctx token) req (world s) = (Ok resp, w) →
         Revoke B c ctx token s
         = (None, Build_State (Body_Close B resp w) (metrics s))).
Proof.
  split.
  - intros e Hreq. unfold Revoke. by rewrite Hreq.
  - intros req Hreq. split.
    + intros e w Hdo. unfold Revoke; unfold_M. by rewrite Hreq, Hdo.
    + intros resp w Hdo. unfold Revoke; unfold_M. by rewrite Hreq, Hdo.
Qed.

(** C8: [Exchange] moves the exchange counter of the label [google] by one
    when the exchange of the library answers no error, and leaves the metrics
    as they were when it answers an error.  [Valid] moves the validation
    counter of [google] by one, and answers [true], when every one of its
    checks passes; when one of them does not, it answers [false] and leaves
    the metrics as they were.  A move changes the counter of [google] in its
    own vector, and nothing else. *)
Theorem counters_move_exactly_on_success c ctx s :
  (∀ code,
     metrics (Exchange B c ctx code s).2
     = if (Exchange B c ctx code s).1.2 is None
       then exchanged (metrics s) else metrics s)
  ∧ (∀ code,
       (Exchange B c ctx code s).1
       = (Config_Exchange B (config c) ctx code (world s)).1)
  ∧ (∀ token,
       all_checks_pass B c ctx token s →
       (Valid B c ctx token s).1 = true
       ∧ metrics (Valid B c ctx token s).2 = validated (metrics s))
  ∧ (∀ token,
       ¬ all_checks_pass B c ctx token s →
       (Valid B c ctx token s).1 = false
       ∧ metrics (Valid B c ctx token s).2 = metrics s)
  ∧ (∀ m l,
       count l (AuthExchange (exchanged m))
       = (if decide (l = "google") then S (count l (AuthExchange m))
          else count l (AuthExchange m))
       ∧ AuthValid (exchanged m) = AuthValid m)
  ∧ (∀ m l,
       count l (AuthValid (validated m))
       = (if decide (l = "google") then S (count l (AuthValid m))
          else count l (AuthValid m))
       ∧ AuthExchange (validated m) = AuthExchange m).
Proof.
  split_and!.
  - intros code. unfold Exchange; unfold_M.
    destruct (Config_Exchange B (config c) ctx code (world s)) as [[t [e|]] w]; done.
  - intros code. unfold Exchange; unfold_M.
    destruct (Config_Exchange B (config c) ctx code (world s)) as [[t [e|]] w]; done.
  - intros token
      (s1 & svc & w2 & ti & w3 & ui & w4 & Hpass & Hv & Hns & Hti & Haud & Hui & Hdom).
    rewrite (Valid_accept B c ctx token s s1 svc w2 ti w3 ui w4) by done.
    cbn [fst snd metrics]. split; [done|].
    by rewrite (whitelist_passed_metrics B c ctx token s s1).
  - intros token Hnot.
    destruct (Valid B c ctx token s) as [[] s'] eqn:Hrun; cbn [fst snd].
    + destruct Hnot. apply Valid_true_inv in Hrun
        as (s1 & svc & w2 & ti & w3 & ui & w4 & Hpass & Hv & Hns & Hti & Haud & Hui & Hdom & _).
      by exists s1, svc, w2, ti, w3, ui, w4.
    + split; [done|]. by eapply Valid_false_metrics.
  - intros m l. split; [|done]. unfold exchanged; cbn [AuthExchange].
    apply count_counter_inc.
  - intros m l. split; [|done]. unfold validated; cbn [AuthValid].
    apply count_counter_inc.
Qed.
End ProviderClaims.

(** ** Runs on the backend with fixed answers *)

Example New_alice : example_New alice_auth = Ok alice_provider.
Proof. vm_compute. reflexivity. Qed.

(** The scenario of the specification: a provider with the domain
    [example.com] and no whitelist accepts a token of that domain minted for
    it, and rejects the same token when the backend reports another domain. *)
Example domain_scenario :
  Valid same_domain_backend domain_provider tt example_token fresh_state
  = (true, {| world := ["NewService"; "Tokeninfo.Do"; "Userinfo.Get.Do"];
              metrics := validated (metrics fresh_state) |})
  ∧ Valid other_domain_backend domain_provider tt example_token fresh_state
    = (false, {| world := ["NewService"; "Tokeninfo.Do"; "Userinfo.Get.Do"];
                 metrics := metrics fresh_state |}).
Proof. split; vm_compute; reflexivity. Qed.

(** A token minted for another application stops the run at the audience
    check: the user information is not fetched. *)
Example foreign_audience_run :
  Valid other_audience_backend domain_provider tt example_token fresh_state
  = (false, {| world := ["NewService"; "Tokeninfo.Do"]; metrics := metrics fresh_state |}).
Proof. vm_compute. reflexivity. Qed.

(** Counterexample to C1 as first stated: Alice is in the whitelist of the provider, her
    token is valid, confirmed by the backend and minted for the provider, and
    the backend reports a domain that is not the configured one.  [Valid]
    runs all its checks and answers [false]. *)
Lemma whitelisted_address_of_other_domain_is_rejected :
  example_New alice_auth = Ok alice_provider
  ∧ (0 < size (whitelist alice_provider))%nat
  ∧ Email other_domain_backend alice_provider tt example_token fresh_state
    = ("alice@example.com", after_email)
  ∧ in_whitelist alice_provider "alice@example.com"
  ∧ Token_Valid other_domain_backend example_token (world after_email) = true
  ∧ NewService other_domain_backend tt (newClient alice_provider tt example_token)
      (world after_email)
    = (Ok alice_service, ["NewService"; "Userinfo.Get.Do"; "NewService"])
  ∧ Tokeninfo_Do other_domain_backend alice_service (AccessToken example_token)
      ["NewService"; "Userinfo.Get.Do"; "NewService"]
    = (Ok {| Audience := ClientID (config alice_provider) |},
       ["NewService"; "Userinfo.Get.Do"; "NewService"; "Tokeninfo.Do"])
  ∧ Userinfo_Get_Do other_domain_backend alice_service
      ["NewService"; "Userinfo.Get.Do"; "NewService"; "Tokeninfo.Do"]
    = (Ok {| UserEmail := "alice@example.com"; Hd := "other.com" |},
       ["NewService"; "Userinfo.Get.Do"; "NewService"; "Tokeninfo.Do"; "Userinfo.Get.Do"])
  ∧ domain alice_provider = "example.com"
  ∧ Valid other_domain_backend alice_provider tt example_token fresh_state
    = (false,
       {| world := ["NewService"; "Userinfo.Get.Do"; "NewService"; "Tokeninfo.Do";
                    "Userinfo.Get.Do"];
          metrics := metrics fresh_state |}).
Proof. split_and!; vm_compute; (reflexivity || lia). Qed.

(** Counterexample to C6 as first stated: the revocation endpoint answers the status 400,
    so the token was not revoked, and [Revoke] answers [nil]. *)
Lemma Revoke_nil_on_refused_revocation :
  NewRequestWithContext refusing_backend tt "GET" (revokeURL (AccessToken example_token))
  = Ok {| req_method := "GET";
          req_url := "https://accounts.google.com/o/oauth2/revoke?token=ya29.token" |}
  ∧ Client_Do refusing_backend (newClient alice_provider tt example_token)
      {| req_method := "GET";
         req_url := "https://accounts.google.com/o/oauth2/revoke?token=ya29.token" |}
      (world fresh_state)
    = (Ok {| StatusCode := 400 |}, ["Client.Do"])
  ∧ Revoke refusing_backend alice_provider tt example_token fresh_state
    = (None, {| world := ["Client.Do"; "Body.Close"]; metrics := metrics fresh_state |}).
Proof. split_and!; vm_compute; reflexivity. Qed.

(** ** The theorems at work on the fixed answers *)

(** Witness of C1: Alice, whitelisted and of the configured domain, is let in. *)
Lemma Valid_whitelist_then_domain_witness :
  (Valid same_domain_backend alice_provider tt example_token fresh_state).1 = true.
Proof.
  pose proof (Valid_whitelist_then_domain same_domain_backend alice_provider tt
                example_token fresh_state "alice@example.com" after_email) as H.
  destruct H as [_ H]; [vm_compute; lia | vm_compute; reflexivity |].
  destruct (H eq_refl alice_service
              ["NewService"; "Userinfo.Get.Do"; "NewService"]
              {| Audience := "cashier-client" |}
              ["NewService"; "Userinfo.Get.Do"; "NewService"; "Tokeninfo.Do"])
    as [_ Hok]; [vm_compute; reflexivity .. |].
  apply (Hok {| UserEmail := "alice@example.com"; Hd := "example.com" |}
             ["NewService"; "Userinfo.Get.Do"; "NewService"; "Tokeninfo.Do";
              "Userinfo.Get.Do"]);
    solve [vm_compute; reflexivity | right; reflexivity].
Defined.

(** Witness of C2: the run of a provider without whitelist on a token of another
    domain ends at the fifth check. *)
Lemma Valid_checks_in_order_witness :
  Valid other_domain_backend domain_provider tt example_token fresh_state
  = (false, {| world := ["NewService"; "Tokeninfo.Do"; "Userinfo.Get.Do"];
               metrics := metrics fresh_state |}).
Proof.
  destruct (Valid_checks_in_order other_domain_backend domain_provider tt
              example_token fresh_state) as [_ H].
  destruct (H fresh_state) as [_ H2]; [left; split; reflexivity|].
  destruct (H2 eq_refl) as [_ H3].
  destruct (H3 {| svc_client := newClient domain_provider tt example_token |}
               ["NewService"] eq_refl) as [_ H4].
  destruct (H4 {| Audience := "cashier-client" |} ["NewService"; "Tokeninfo.Do"] eq_refl)
    as [_ H5].
  destruct (H5 eq_refl) as [_ H6].
  destruct (H6 {| UserEmail := "alice@example.com"; Hd := "other.com" |}
               ["NewService"; "Tokeninfo.Do"; "Userinfo.Get.Do"] eq_refl) as [H7 _].
  apply H7; vm_compute; discriminate.
Defined.

(** Witness of C3: a token minted for another application is rejected, although Alice
    is whitelisted and of the configured domain. *)
Lemma Valid_rejects_foreign_audience_witness :
  (Valid other_audience_backend alice_provider tt example_token fresh_state).1 = false.
Proof.
  apply (Valid_rejects_foreign_audience other_audience_backend alice_provider tt
           example_token fresh_state).
  intros svc w ti w' Hti. vm_compute in Hti.
  injection Hti as <- _. vm_compute. discriminate.
Defined.

(** Witness of C5: when the backend cannot be reached, the token is not valid. *)
Lemma Valid_fails_closed_witness :
  (Valid (canned unreachable) domain_provider tt example_token fresh_state).1 = false.
Proof.
  destruct (Valid_fails_closed (canned unreachable) domain_provider tt example_token
              fresh_state) as [Hown _].
  destruct (Hown fresh_state) as (_ & H & _); [left; split; reflexivity|].
  apply (H {| svc_client := newClient domain_provider tt example_token |}
           ["NewService"] "dial tcp: i/o timeout" ["NewService"; "Tokeninfo.Do"]);
    vm_compute; reflexivity.
Defined.

(** Witness of C6: no response, and [Revoke] answers the error of the client. *)
Lemma Revoke_error_iff_no_response_witness :
  Revoke (canned unreachable) alice_provider tt example_token fresh_state
  = (Some "dial tcp: i/o timeout",
     {| world := ["Client.Do"]; metrics := metrics fresh_state |}).
Proof.
  destruct (Revoke_error_iff_no_response (canned unreachable) alice_provider tt
              example_token fresh_state) as [_ H].
  destruct (H {| req_method := "GET";
                 req_url := "https://accounts.google.com/o/oauth2/revoke?token=ya29.token" |}
              eq_refl) as [H1 _].
  apply H1. vm_compute. reflexivity.
Defined.

(** Witness of C7: the user name of [alice@example.com] is [alice], and the user name of
    the empty address, which [Email] answers when the backend cannot be
    reached, is empty. *)
Lemma Username_is_email_before_at_witness :
  (Username same_domain_backend alice_provider tt example_token fresh_state).1 = Some "alice"
  ∧ (Username (canned unreachable) alice_provider tt example_token fresh_state).1 = Some "".
Proof.
  split.
  - destruct (Username_is_email_before_at same_domain_backend alice_provider tt
                example_token fresh_state) as [H _].
    rewrite (H "alice" "example.com"); reflexivity.
  - destruct (Username_is_email_before_at (canned unreachable) alice_provider tt
                example_token fresh_state) as [_ H].
    rewrite H; reflexivity.
Defined.

(** Witness of C9: the provider of a configuration with a whitelist and no
    domain sends [hd] with the empty value. *)
Lemma StartSession_always_carries_hd_witness :
  ∃ c, example_New whitelist_only_auth = Ok c
       ∧ url_query (StartSession c "af-state") !! "hd" = Some [""].
Proof.
  destruct (StartSession_always_carries_hd example_endpoint "scope.email" "scope.profile"
              alice_provider "af-state") as [_ H].
  apply (H whitelist_only_auth); [left; reflexivity | discriminate].
Defined.

(** An exchange that succeeds moves the exchange counter of [google] from 0
    to 1; an exchange that fails leaves the metrics as they were. *)
Example exchange_runs :
  Exchange same_domain_backend alice_provider tt "4/code" fresh_state
  = ((Some example_token, None),
     {| world := ["Config.Exchange"]; metrics := exchanged (metrics fresh_state) |})
  ∧ count "google" (AuthExchange (exchanged (metrics fresh_state))) = 1%nat
  ∧ Exchange (canned unreachable) alice_provider tt "4/code" fresh_state
    = ((None, Some "dial tcp: i/o timeout"),
       {| world := ["Config.Exchange"]; metrics := metrics fresh_state |}).
Proof. split_and!; vm_compute; reflexivity. Qed.

(** An address without [@] is its own user name. *)
Example Username_without_at :
  (Username (canned (answers "root" "example.com" "cashier-client" 200))
     alice_provider tt example_token fresh_state).1 = Some "root".
Proof. vm_compute. reflexivity. Qed.

(** * Further properties of the provider *)

(** ** [strings.Split], [Username] and [Email] *)

Lemma Split_head_spec (s : string) (sep : ascii) :
  ∃ piece pieces,
    Split s sep = piece :: pieces
    ∧ occurs sep piece = false
    ∧ (s = piece ∧ pieces = [] ∨ ∃ rest, s = piece +:+ String sep rest).
Proof.
  induction s as [|ch s IH]; cbn [Split].
  - exists "", []. split_and!; [done | done | by left].
  - destruct (Ascii.eqb ch sep) eqn:Hch.
    + apply Ascii.eqb_eq in Hch as ->.
      exists "", (Split s sep). split_and!; [done | done | right; by exists s].
    + destruct IH as (piece & pieces & -> & Hfree & Hshape).
      exists (String ch piece), pieces. split_and!; [done | |].
      * cbn [occurs]. by rewrite Hch, Hfree.
      * destruct Hshape as [[-> ->] | [rest ->]]; [by left|].
        right. by exists rest.
Qed.

(** X1: splitting and joining again gives the string back, and no piece of
    the split holds the separator. *)
Theorem Join_Split (s : string) (sep : ascii) :
  Join (Split s sep) sep = s
  ∧ Forall (λ piece, occurs sep piece = false) (Split s sep).
Proof.
  induction s as [|ch s [IHjoin IHfree]]; cbn [Split].
  - split; [done|]. by constructor.
  - destruct (Ascii.eqb ch sep) eqn:Hch.
    + apply Ascii.eqb_eq in Hch as ->. split.
      * destruct (Split_cons s sep) as (piece & pieces & Hs).
        rewrite Hs in IHjoin |- *. cbn [Join] in *. by rewrite IHjoin.
      * by constructor.
    + destruct (Split_cons s sep) as (piece & pieces & Hs).
      rewrite Hs in IHjoin, IHfree |- *.
      apply Forall_cons in IHfree as [Hpiece Hpieces]. split.
      * cbn [Join] in *. destruct pieces; [by rewrite IHjoin|].
        rewrite <- IHjoin. done.
      * constructor; [|done]. cbn [occurs]. by rewrite Hch, Hpiece.
Qed.

Section IdentityExtras.
Context {Ctx W : Type} (B : Backend Ctx W).
Implicit Types (c : Config) (ctx : Ctx) (token : Token) (s : State W).

(** X2: the user name [Username] answers holds no [@], and the address of
    [Email] is that user name, alone or followed by [@] and the rest: the
    user name is the part of the address before its first [@]. *)
Theorem Username_is_longest_prefix_without_at c ctx token s :
  ∃ user,
    (Username B c ctx token s).1 = Some user
    ∧ occurs "@" user = false
    ∧ ((Email B c ctx token s).1 = user
       ∨ ∃ rest, (Email B c ctx token s).1 = user +:+ String "@" rest).
Proof.
  rewrite Username_run; cbn [fst].
  destruct (Split_head_spec (Email B c ctx token s).1 "@")
    as (piece & pieces & -> & Hfree & Hshape).
  exists piece. split_and!; [done | done |].
  destruct Hshape as [[<- _] | [rest Hrest]]; [by left | right; by exists rest].
Qed.

(** X3: [Username] answers the empty string exactly when the address of
    [Email] is empty or begins with [@]. *)
Theorem Username_empty_iff c ctx token s :
  (Username B c ctx token s).1 = Some ""
  ↔ (Email B c ctx token s).1 = ""
    ∨ ∃ rest, (Email B c ctx token s).1 = String "@" rest.
Proof.
  rewrite Username_run; cbn [fst]. split.
  - destruct (Split_head_spec (Email B c ctx token s).1 "@")
      as (piece & pieces & -> & _ & Hshape).
    intros [= ->]. destruct Hshape as [[-> _] | [rest ->]]; [by left|].
    right. by exists rest.
  - intros [-> | [rest ->]]; [done|]. cbn [Split]. by rewrite Ascii.eqb_refl.
Qed.

(** X4: an address [Email] answers that is not empty is the address the
    backend reported in a user information it fetched, through a service it
    built in the state [Email] started in.  [Email] never moves a counter. *)
Theorem Email_answers_what_the_backend_reports c ctx token s :
  ((Email B c ctx token s).1 ≠ "" →
   ∃ svc w ui w',
     NewService B ctx (newClient c ctx token) (world s) = (Ok svc, w)
     ∧ Userinfo_Get_Do B svc w = (Ok ui, w')
     ∧ UserEmail ui = (Email B c ctx token s).1
     ∧ world (Email B c ctx token s).2 = w')
  ∧ metrics (Email B c ctx token s).2 = metrics s.
Proof.
  split; [|apply Email_metrics].
  unfold Email; unfold_M.
  destruct (NewService B ctx (newClient c ctx token) (world s)) as [[svc|e] w];
    cbn; [|done].
  destruct (Userinfo_Get_Do B svc w) as [[ui|e] w'] eqn:Hui; cbn; [|done].
  intros _. by exists svc, w, ui, w'.
Qed.
End IdentityExtras.

(** ** Acceptance by [Valid] *)

(** One step of a run on [B] that [B'] answers alike: the next call is made
    on [B'] and its answer is taken apart. *)
Ltac step_API HTV HNS HTI HUI :=
  match goal with
  | |- context [Token_Valid ?B ?t ?w] =>
      rewrite (HTV t w); destruct (Token_Valid _ t w) eqn:?
  | |- context [NewService ?B ?x ?cl ?w] =>
      rewrite (HNS x cl w); destruct (NewService _ x cl w) as [[?|?] ?] eqn:?
  | |- context [Tokeninfo_Do ?B ?svc ?a ?w] =>
      rewrite (HTI svc a w); destruct (Tokeninfo_Do _ svc a w) as [[?|?] ?] eqn:?
  | |- context [Userinfo_Get_Do ?B ?svc ?w] =>
      rewrite (HUI svc w); destruct (Userinfo_Get_Do _ svc w) as [[?|?] ?] eqn:?
  end; cbn.

Section ValidExtras.
Context {Ctx W : Type} (B : Backend Ctx W).
Implicit Types (c : Config) (ctx : Ctx) (token : Token) (s : State W).

Lemma Valid_metrics c ctx token s :
  metrics (Valid B c ctx token s).2
  = if (Valid B c ctx token s).1 then validated (metrics s) else metrics s.
Proof.
  destruct (Valid B c ctx token s) as [[] s'] eqn:Hrun; cbn [fst snd].
  - apply Valid_true_inv in Hrun
      as (s1 & svc & w2 & ti & w3 & ui & w4 & Hpass & _ & _ & _ & _ & _ & _ & ->).
    cbn [metrics]. by rewrite (whitelist_passed_metrics B c ctx token s s1).
  - by eapply Valid_false_metrics.
Qed.

(** X5: [Valid] answers [true] exactly on the runs in which the whitelist
    check passed, the token is valid locally, the service was built, the
    token information came back with the client id of the provider as its
    audience, the user information came back, and no domain is configured or
    the reported domain is the configured one; the state it leaves is the
    world after the last call, with the validation counter moved. *)
Theorem Valid_accepts_iff c ctx token s s' :
  Valid B c ctx token s = (true, s')
  ↔ ∃ s1 svc w2 ti w3 ui w4,
      whitelist_passed B c ctx token s s1
      ∧ Token_Valid B token (world s1) = true
      ∧ NewService B ctx (newClient c ctx token) (world s1) = (Ok svc, w2)
      ∧ Tokeninfo_Do B svc (AccessToken token) w2 = (Ok ti, w3)
      ∧ Audience ti = ClientID (config c)
      ∧ Userinfo_Get_Do B svc w3 = (Ok ui, w4)
      ∧ (domain c = "" ∨ Hd ui = domain c)
      ∧ s' = Build_State w4 (validated (metrics s1)).
Proof.
  split; [apply Valid_true_inv|].
  intros (s1 & svc & w2 & ti & w3 & ui & w4 & Hpass & Hv & Hns & Hti & Haud & Hui & Hdom & ->).
  by eapply Valid_accept.
Qed.


(** X7: [Valid] and [Email] use nothing of the backend but the token check
    and the three calls of the Google API: on two backends that agree on
    these, they run alike, whatever the HTTP client and the code exchange of
    the two backends do.  Neither sends a revocation or exchanges a code. *)
Theorem Valid_uses_the_API_only (B' : Backend Ctx W) c ctx token s :
  same_API B B' →
  Valid B c ctx token s = Valid B' c ctx token s
  ∧ Email B c ctx token s = Email B' c ctx token s.
Proof.
  intros (HTV & HNS & HTI & HUI).
  assert (Email B c ctx token s = Email B' c ctx token s) as Hemail.
  { unfold Email; unfold_M. repeat step_API HTV HNS HTI HUI; done. }
  split; [|done].
  unfold Valid; unfold_M.
  destruct (0 <? size (whitelist c))%nat; cbn.
  - rewrite Hemail. destruct (Email B' c ctx token s) as [email s1].
    destruct (negb (map_get_bool (whitelist c) email)); [done|].
    repeat step_API HTV HNS HTI HUI; try done.
    destruct (string_neq _ _); cbn; [done|].
    repeat step_API HTV HNS HTI HUI; done.
  - repeat step_API HTV HNS HTI HUI; try done.
    destruct (string_neq _ _); cbn; [done|].
    repeat step_API HTV HNS HTI HUI; done.
Qed.

Lemma Email_stateless c ctx token s s' :
  stateless B → (Email B c ctx token s).1 = (Email B c ctx token s').1.
Proof.
  intros (_ & HNS & _ & HUI). unfold Email; unfold_M.
  pose proof (HNS ctx (newClient c ctx token) (world s) (world s')) as Hns.
  destruct (NewService B ctx (newClient c ctx token) (world s)) as [r w],
           (NewService B ctx (newClient c ctx token) (world s')) as [r' w'].
  cbn in Hns; subst r'. destruct r as [svc|e]; cbn; [|done].
  pose proof (HUI svc w w') as Hui.
  destruct (Userinfo_Get_Do B svc w) as [r v], (Userinfo_Get_Do B svc w') as [r' v'].
  cbn in Hui; subst r'. by destruct r.
Qed.

Lemma Valid_stateless_true c ctx token s s' :
  stateless B →
  (Valid B c ctx token s).1 = true → (Valid B c ctx token s').1 = true.
Proof.
  intros Hst Htrue. pose proof Hst as (HTV & HNS & HTI & HUI).
  destruct (Valid B c ctx token s) as [b t] eqn:Hrun. cbn [fst] in Htrue; subst b.
  apply Valid_true_inv in Hrun
    as (s1 & svc & w2 & ti & w3 & ui & w4 & Hpass & Hv & Hns & Hti & Haud & Hui & Hdom & _).
  assert (∃ s1', whitelist_passed B c ctx token s' s1') as [s1' Hpass'].
  { destruct Hpass as [[Hz _] | [Hpos (email & Hem & Hin)]].
    - exists s'. by left.
    - destruct (Email B c ctx token s') as [email' s1'] eqn:Hem'.
      exists s1'. right. split; [done|]. exists email'. split; [done|].
      pose proof (Email_stateless c ctx token s s' Hst) as Heq.
      rewrite Hem, Hem' in Heq. cbn in Heq. by subst email'. }
  assert (Token_Valid B token (world s1') = true) as Hv'
    by (by rewrite (HTV token (world s1') (world s1))).
  pose proof (HNS ctx (newClient c ctx token) (world s1') (world s1)) as Hns'.
  rewrite Hns in Hns'. cbn in Hns'.
  destruct (NewService B ctx (newClient c ctx token) (world s1')) as [r w2'] eqn:Hns2.
  cbn in Hns'; subst r.
  pose proof (HTI svc (AccessToken token) w2' w2) as Hti'.
  rewrite Hti in Hti'. cbn in Hti'.
  destruct (Tokeninfo_Do B svc (AccessToken token) w2') as [r w3'] eqn:Hti2.
  cbn in Hti'; subst r.
  pose proof (HUI svc w3' w3) as Hui'.
  rewrite Hui in Hui'. cbn in Hui'.
  destruct (Userinfo_Get_Do B svc w3') as [r w4'] eqn:Hui2.
  cbn in Hui'; subst r.
  by rewrite (Valid_accept B c ctx token s' s1' svc w2' ti w3' ui w4').
Qed.

Lemma Valid_stateless c ctx token s s' :
  stateless B → (Valid B c ctx token s).1 = (Valid B c ctx token s').1.
Proof.
  intros Hst.
  destruct (Valid B c ctx token s).1 eqn:H1, (Valid B c ctx token s').1 eqn:H2; try done.
  - by rewrite (Valid_stateless_true c ctx token s s' Hst H1) in H2.
  - by rewrite (Valid_stateless_true c ctx token s' s Hst H2) in H1.
Qed.

(** X8: on a backend whose answers do not change, [Valid] can be asked
    again: the second answer is the first one, and every [true] moves the
    validation counter of [google] once more, so two runs that accept leave
    it two higher. *)
Theorem Valid_twice c ctx token s :
  stateless B →
  (Valid B c ctx token (Valid B c ctx token s).2).1 = (Valid B c ctx token s).1
  ∧ count "google" (AuthValid (metrics (Valid B c ctx token (Valid B c ctx token s).2).2))
    = (count "google" (AuthValid (metrics s))
       + if (Valid B c ctx token s).1 then 2 else 0)%nat.
Proof.
  intros Hst.
  pose proof (Valid_stateless c ctx token (Valid B c ctx token s).2 s Hst) as Hsame.
  split; [done|].
  rewrite Valid_metrics, Hsame, Valid_metrics.
  destruct (Valid B c ctx token s).1; [|lia].
  unfold validated; cbn [AuthValid]. rewrite !count_counter_inc.
  rewrite !decide_True by done. lia.
Qed.

(** X9: [Email], [Username] and [Revoke] never move a counter: the metrics
    they leave are the metrics they found. *)
Theorem only_Valid_and_Exchange_move_counters c ctx token s :
  metrics (Email B c ctx token s).2 = metrics s
  ∧ metrics (Username B c ctx token s).2 = metrics s
  ∧ metrics (Revoke B c ctx token s).2 = metrics s.
Proof.
  split_and!.
  - apply Email_metrics.
  - rewrite Username_run. apply Email_metrics.
  - unfold Revoke; unfold_M.
    destruct (NewRequestWithContext B ctx "GET" (revokeURL (AccessToken token)))
      as [req|e]; [|done].
    destruct (Client_Do B (newClient c ctx token) req (world s)) as [[resp|e] w]; done.
Qed.

(** X10: the counters [Valid] and [Exchange] move are the ones of the label
    [Name] answers: a [Valid] that answers [true] leaves the validation
    counter of that label one higher, an [Exchange] without error the
    exchange counter of that label, and the counters of every other label
    stay as they were. *)
Theorem counters_are_labelled_by_Name c ctx token code s label :
  count label (AuthValid (metrics (Valid B c ctx token s).2))
  = (count label (AuthValid (metrics s))
     + if (Valid B c ctx token s).1 && bool_decide (label = Name c) then 1 else 0)%nat
  ∧ count label (AuthExchange (metrics (Exchange B c ctx code s).2))
    = (count label (AuthExchange (metrics s))
       + if bool_decide ((Exchange B c ctx code s).1.2 = None)
            && bool_decide (label = Name c) then 1 else 0)%nat.
Proof.
  unfold Name, name. split.
  - rewrite Valid_metrics. destruct (Valid B c ctx token s).1; cbn [andb]; [|lia].
    unfold validated; cbn [AuthValid]. rewrite count_counter_inc.
    destruct (decide (label = "google")) as [Heq|Hne].
    + rewrite bool_decide_eq_true_2 by done. lia.
    + rewrite bool_decide_eq_false_2 by done. lia.
  - unfold Exchange; unfold_M.
    destruct (Config_Exchange B (config c) ctx code (world s)) as [[t [e|]] w]; cbn.
    + lia.
    + rewrite count_counter_inc.
      destruct (decide (label = "google")) as [Heq|Hne].
      * rewrite bool_decide_eq_true_2 by done. lia.
      * rewrite bool_decide_eq_false_2 by done. lia.
Qed.
End ValidExtras.

(** ** The provider [New] builds *)

Lemma whitelist_fold_dom (l : list string) (m : gmap string bool) :
  dom (foldl (λ (m : gmap string bool) u, <[u := true]> m) m l)
  = list_to_set l ∪ dom m.
Proof.
  revert m. induction l as [|x l IH]; intros m; cbn [foldl list_to_set].
  - by rewrite (left_id_L ∅ (∪)).
  - rewrite IH, dom_insert_L.
    by rewrite (assoc_L (∪)), (comm_L (∪) (list_to_set l) {[x]}).
Qed.

Section NewExtras.
Context (ep : Endpoint) (email_scope profile_scope : string).

Lemma New_Ok_inv (a : Auth) (c : Config) :
  New ep email_scope profile_scope a = Ok c →
  c = {| config := {| ClientID := OauthClientID a;
                      ClientSecret := OauthClientSecret a;
                      RedirectURL := OauthCallbackURL a;
                      OauthEndpoint := ep;
                      Scopes := [email_scope; profile_scope] |};
         domain := map_get_string (ProviderOpts a) "domain";
         whitelist := foldl (λ (m : gmap string bool) u, <[u := true]> m) ∅
                        (UsersWhitelist a) |}
  ∧ ¬ (no_domain_option a ∧ UsersWhitelist a = []).
Proof.
  unfold New. case_match eqn:Hguard; [done|]. intros [= <-]. split; [done|].
  intros [Hdom%map_get_string_empty Hwl]. rewrite Hdom, Hwl in Hguard. done.
Qed.

(** X11: every provider [New] builds restricts who gets in: its domain is
    not empty or its whitelist is not empty.  Its whitelist maps every key it
    holds to [true], so an address is in the whitelist exactly when it is a
    key of the map. *)
Theorem New_provider_is_restricted (a : Auth) (c : Config) :
  New ep email_scope profile_scope a = Ok c →
  (domain c ≠ "" ∨ (0 < size (whitelist c))%nat)
  ∧ (∀ u b, whitelist c !! u = Some b → b = true)
  ∧ (∀ u, in_whitelist c u ↔ is_Some (whitelist c !! u)).
Proof.
  intros [-> Hsome]%New_Ok_inv. cbn [domain whitelist].
  assert (∀ u b,
            foldl (λ (m : gmap string bool) u, <[u := true]> m) ∅ (UsersWhitelist a) !! u
            = Some b → b = true) as Htrue.
  { intros u b. rewrite whitelist_fold_lookup, lookup_empty. by case_decide; intros [= <-]. }
  split_and!; [|done|].
  - destruct (decide (map_get_string (ProviderOpts a) "domain" = "")) as [Hdom|]; [|by left].
    right. destruct (decide (UsersWhitelist a = [])) as [Hwl|Hwl].
    + destruct Hsome. split; [by apply map_get_string_empty | done].
    + pose proof (whitelist_fold_size (UsersWhitelist a)) as Hsz.
      apply Nat.neq_0_lt_0. by rewrite Hsz.
  - intros u. unfold in_whitelist, map_get_bool; cbn [whitelist]. split.
    + destruct (_ !! u) as [b|]; [by eexists | done].
    + intros [b Hb]. rewrite Hb. cbn. by eapply Htrue.
Qed.

(** X12: the whitelist of the configuration counts as a set: two
    configurations that differ only in the order of the whitelisted users, or
    in how often each is listed, give the same result of [New]. *)
Theorem New_reads_the_whitelist_as_a_set
    (id secret callback : string) (opts : gmap string string) (l l' : list string) :
  (∀ u, u ∈ l ↔ u ∈ l') →
  New ep email_scope profile_scope
    {| OauthClientID := id; OauthClientSecret := secret; OauthCallbackURL := callback;
       ProviderOpts := opts; UsersWhitelist := l |}
  = New ep email_scope profile_scope
      {| OauthClientID := id; OauthClientSecret := secret; OauthCallbackURL := callback;
         ProviderOpts := opts; UsersWhitelist := l' |}.
Proof.
  intros Hsame. unfold New; cbn [UsersWhitelist ProviderOpts OauthClientID
                                  OauthClientSecret OauthCallbackURL].
  assert (foldl (λ (m : gmap string bool) u, <[u := true]> m) ∅ l
          = foldl (λ (m : gmap string bool) u, <[u := true]> m) ∅ l') as ->; [|done].
  apply map_eq. intros u. rewrite !whitelist_fold_lookup.
  destruct (decide (u ∈ l)) as [Hin|Hnin].
  - rewrite decide_True; [done | by apply Hsame].
  - rewrite decide_False; [done | by rewrite <- Hsame].
Qed.

(** X13: the whitelist of the provider has one key for each distinct user of
    the configuration. *)
Theorem New_whitelist_size (a : Auth) (c : Config) :
  New ep email_scope profile_scope a = Ok c →
  size (whitelist c) = length (remove_dups (UsersWhitelist a)).
Proof.
  intros [-> _]%New_Ok_inv. cbn [whitelist].
  rewrite <- size_dom, whitelist_fold_dom, dom_empty_L, (right_id_L ∅ (∪)).
  rewrite <- (size_list_to_set (C := gset string) (remove_dups (UsersWhitelist a)))
    by apply NoDup_remove_dups.
  f_equal. apply set_eq. intros u.
  by rewrite !elem_of_list_to_set, elem_of_remove_dups.
Qed.

(** X14: the URL of [StartSession] carries the state it is given, unchanged,
    when the state is not empty, and no state parameter otherwise; it carries
    the client id, the response type [code], the redirect URL when there is
    one, and points to the authorization endpoint.  The [hd] option replaces
    none of them. *)
Theorem StartSession_carries_state_and_client (c : Config) (state : string) :
  url_endpoint (StartSession c state) = AuthURL (OauthEndpoint (config c))
  ∧ url_query (StartSession c state) !! "state"
    = (if decide (state = "") then None else Some [state])
  ∧ url_query (StartSession c state) !! "client_id" = Some [ClientID (config c)]
  ∧ url_query (StartSession c state) !! "response_type" = Some ["code"]
  ∧ url_query (StartSession c state) !! "redirect_uri"
    = (if decide (RedirectURL (config c) = "") then None
       else Some [RedirectURL (config c)]).
Proof.
  unfold StartSession, AuthCodeURL, set_unless_empty.
  cbn [url_endpoint url_query foldl setValue].
  destruct (String.eqb_spec state "") as [->|Hstate];
    destruct (String.eqb_spec (RedirectURL (config c)) "") as [Hr|Hr];
    destruct (0 <? length (Scopes (config c)))%nat;
    repeat case_decide; try done;
    split_and!; by simplify_map_eq.
Qed.

(** X15: through a provider built by [New], a token [Valid] accepts meets
    every restriction of the configuration, and there is one.  When users are
    whitelisted, the address [Email] derives for this token from the state
    [Valid] started in is one of them.  The run built a service for this
    token, got its token information and then its user information through
    that service, and ended in the world that last call left; when a domain
    option is set, that user information reports exactly that domain. *)
Theorem New_then_Valid_is_sound {Ctx W : Type} (B : Backend Ctx W)
    (a : Auth) (c : Config) (ctx : Ctx) (token : Token) (s s' : State W) :
  New ep email_scope profile_scope a = Ok c →
  Valid B c ctx token s = (true, s') →
  ¬ (no_domain_option a ∧ UsersWhitelist a = [])
  ∧ (UsersWhitelist a ≠ [] → (Email B c ctx token s).1 ∈ UsersWhitelist a)
  ∧ ∃ s1 svc w2 ti w3 ui w4,
      whitelist_passed B c ctx token s s1
      ∧ NewService B ctx (newClient c ctx token) (world s1) = (Ok svc, w2)
      ∧ Tokeninfo_Do B svc (AccessToken token) w2 = (Ok ti, w3)
      ∧ Userinfo_Get_Do B svc w3 = (Ok ui, w4)
      ∧ world s' = w4
      ∧ (¬ no_domain_option a → ProviderOpts a !! "domain" = Some (Hd ui)).
Proof.
  intros Hnew Hrun. pose proof (New_whitelist ep email_scope profile_scope a c) as Hwl.
  pose proof Hnew as [Hc Hsome]%New_Ok_inv.
  apply Valid_true_inv in Hrun
    as (s1 & svc & w2 & ti & w3 & ui & w4 & Hpass & _ & Hns & Hti & _ & Hui & Hdom & ->).
  split_and!; [done| |].
  - intros Hne. destruct Hpass as [[Hz _] | [_ (email & Hem & Hin)]].
    + rewrite Hc in Hz. cbn [whitelist] in Hz. by apply whitelist_fold_size in Hz.
    + rewrite Hem. cbn [fst]. by apply (Hwl email Hnew).
  - exists s1, svc, w2, ti, w3, ui, w4. split_and!; [done..|].
    intros Hdomain.
    assert (domain c = map_get_string (ProviderOpts a) "domain") as Hd by (by rewrite Hc).
    unfold no_domain_option, map_get_string in *.
    destruct (ProviderOpts a !! "domain") as [d|]; cbn in Hd; [|by destruct Hdomain; left].
    destruct Hdom as [Hempty | Heq].
    + destruct Hdomain. right. congruence.
    + congruence.
Qed.
End NewExtras.

(** ** The further properties at work on the fixed answers *)

Lemma canned_stateless (k : Canned) : stateless (canned k).
Proof. by split_and!. Qed.


(** Witness of X7: a backend that refuses revocations validates like one
    that grants them. *)
Lemma Valid_uses_the_API_only_witness :
  Valid same_domain_backend alice_provider tt example_token fresh_state
  = Valid refusing_backend alice_provider tt example_token fresh_state.
Proof.
  apply (Valid_uses_the_API_only same_domain_backend refusing_backend alice_provider tt
           example_token fresh_state).
  split_and!; intros; reflexivity.
Defined.

(** Witness of X8: Alice's token validated twice leaves the counter at 2. *)
Lemma Valid_twice_witness :
  count "google"
    (AuthValid (metrics (Valid same_domain_backend alice_provider tt example_token
                           (Valid same_domain_backend alice_provider tt example_token
                              fresh_state).2).2))
  = 2%nat.
Proof.
  destruct (Valid_twice same_domain_backend alice_provider tt example_token fresh_state)
    as [_ H]; [apply canned_stateless|].
  rewrite H. vm_compute. reflexivity.
Defined.

(** Witness of X11: Alice's provider has a domain, and a whitelist of one. *)
Lemma New_provider_is_restricted_witness :
  domain alice_provider ≠ "" ∨ (0 < size (whitelist alice_provider))%nat.
Proof.
  destruct (New_provider_is_restricted example_endpoint "scope.email" "scope.profile"
              alice_auth alice_provider) as [H _]; [vm_compute; reflexivity|].
  exact H.
Defined.

(** Witness of X12: Alice listed twice after Bob, or Alice and Bob once. *)
Lemma New_reads_the_whitelist_as_a_set_witness :
  example_New team_auth = example_New team_auth_sorted.
Proof.
  apply (New_reads_the_whitelist_as_a_set example_endpoint "scope.email" "scope.profile"
           "cashier-client" "secret" "https://cashier.example/callback" ∅
           ["bob@example.com"; "alice@example.com"; "alice@example.com"]
           ["alice@example.com"; "bob@example.com"]).
  intros u. rewrite !elem_of_cons, !elem_of_nil. tauto.
Defined.

(** Witness of X13: three entries, two users, two keys. *)
Lemma New_whitelist_size_witness :
  match example_New team_auth with
  | Ok c => size (whitelist c) = 2%nat
  | Err _ => False
  end.
Proof.
  destruct (example_New team_auth) as [c|e] eqn:Hnew; [|vm_compute in Hnew; discriminate].
  rewrite (New_whitelist_size example_endpoint "scope.email" "scope.profile" team_auth c Hnew).
  vm_compute. reflexivity.
Defined.

(** Witness of X15: Alice, accepted, is one of the whitelisted users. *)
Lemma New_then_Valid_is_sound_witness :
  (Email same_domain_backend alice_provider tt example_token fresh_state).1
  ∈ UsersWhitelist alice_auth.
Proof.
  destruct (New_then_Valid_is_sound example_endpoint "scope.email" "scope.profile"
              same_domain_backend alice_auth alice_provider tt example_token fresh_state
              {| world := ["NewService"; "Userinfo.Get.Do"; "NewService"; "Tokeninfo.Do";
                           "Userinfo.Get.Do"];
                 metrics := validated (metrics fresh_state) |})
    as (_ & H & _); [vm_compute; reflexivity | vm_compute; reflexivity |].
  apply H. discriminate.
Defined.

(** ** Errors inside [Email], and the counter on a full run *)

Example New_blank : example_New blank_auth = Ok blank_provider.
Proof. vm_compute. reflexivity. Qed.

(** Counterexample to C5 as first stated: the whitelist of the provider
    holds the empty address, the request for the user information that
    [Email] makes inside [Valid] fails, and the later calls succeed.  [Email]
    answers the empty address, the whitelist check lets it through, and
    [Valid] answers [true] and moves the counter. *)
Lemma Valid_true_after_an_error_in_Email :
  example_New blank_auth = Ok blank_provider
  ∧ NewService flaky_backend tt (newClient blank_provider tt example_token)
      (world fresh_state)
    = (Ok blank_service, ["NewService"])
  ∧ Userinfo_Get_Do flaky_backend blank_service ["NewService"]
    = (Err "dial tcp: i/o timeout", ["NewService"; "Userinfo.Get.Do"])
  ∧ Email flaky_backend blank_provider tt example_token fresh_state = ("", after_email)
  ∧ Valid flaky_backend blank_provider tt example_token fresh_state
    = (true,
       {| world := ["NewService"; "Userinfo.Get.Do"; "NewService"; "Tokeninfo.Do";
                    "Userinfo.Get.Do"];
          metrics := validated (metrics fresh_state) |}).
Proof. split_and!; vm_compute; reflexivity. Qed.

(** Witness of C8: every check passes for Alice, and the counter moves; no
    check is even reached when the backend cannot be reached, and the metrics
    stay. *)
Lemma counters_move_exactly_on_success_witness :
  metrics (Valid same_domain_backend alice_provider tt example_token fresh_state).2
  = validated (metrics fresh_state)
  ∧ metrics (Valid (canned unreachable) domain_provider tt example_token fresh_state).2
    = metrics fresh_state.
Proof.
  split.
  - destruct (counters_move_exactly_on_success same_domain_backend alice_provider tt
                fresh_state) as (_ & _ & Hpass & _).
    apply Hpass.
    exists after_email, alice_service,
           ["NewService"; "Userinfo.Get.Do"; "NewService"],
           {| Audience := "cashier-client" |},
           ["NewService"; "Userinfo.Get.Do"; "NewService"; "Tokeninfo.Do"],
           {| UserEmail := "alice@example.com"; Hd := "example.com" |},
           ["NewService"; "Userinfo.Get.Do"; "NewService"; "Tokeninfo.Do"; "Userinfo.Get.Do"].
    split_and!; try (vm_compute; reflexivity); [|right; reflexivity].
    right. split; [vm_compute; lia|].
    exists "alice@example.com". split; vm_compute; reflexivity.
  - destruct (counters_move_exactly_on_success (canned unreachable) domain_provider tt
                fresh_state) as (_ & _ & _ & Hfail & _).
    apply Hfail.
    intros (s1 & svc & w2 & ti & w3 & ui & w4 & _ & _ & _ & Hti & _).
    vm_compute in Hti. discriminate.
Defined.

(** Nothing in [Valid] looks at the context: on a backend whose API requests
    answer without one, a cancelled context changes nothing. *)
Example Valid_under_a_cancelled_context :
  Valid (heedless (answers "alice@example.com" "example.com" "cashier-client" 200))
    alice_provider Cancelled example_token fresh_state
  = (true,
     {| world := ["NewService"; "Userinfo.Get.Do"; "NewService"; "Tokeninfo.Do";
                  "Userinfo.Get.Do"];
        metrics := validated (metrics fresh_state) |}).
Proof. vm_compute. reflexivity. Qed.
